(** * Pose server: landmark merge, smoothing strategies, observable model,
      payload adapter and WebSocket broadcast view

    A shallow embedding of the Python sources under [python-server/]:
    [smoothing/], [mvc/model.py], [mvc/controller.py], [payload/adapter.py],
    [transport/websocket_view.py] and the monolithic [server.py].

    NumPy [float32] values are IEEE-754 binary32 numbers, taken from the
    standard library's [SpecFloat] at precision 24; a Python [float] is a
    binary64 number.  Arrays of shape (n,4) are lists of rows.  Arrays are
    Python objects: where a method hands out or mutates an array, the array
    lives in a heap and the method works on its address. *)

From Stdlib Require Import ZArith Bool List String SpecFloat.
From stdpp Require Import base option list gmap strings pretty.

Set Warnings "-register-all".

(** ** Python exceptions and a state-and-exception monad *)

(** The exceptions of the model are instances of [Exception], the class the
    handlers of the sources name; [KeyboardInterrupt] and [SystemExit], which
    are not, are left out. *)
Inductive exn :=
  | IndexError (msg : string)
  | ValueError (msg : string)
  | ConnectionClosed
  | PyException (msg : string).

(** [str(e)] *)
Definition exn_str (e : exn) : string :=
  match e with
  | IndexError msg | ValueError msg | PyException msg => msg
  | ConnectionClosed => "connection closed"
  end.

Inductive res (A : Type) :=
  | Ok (a : A)
  | Raise (e : exn).
Arguments Ok {A} a.
Arguments Raise {A} e.

(** A computation over a mutable state [S]: it ends normally with a value or
    with a raised exception, and in both cases leaves a state behind. *)
Definition M (S A : Type) : Type := S -> res A * S.

Definition ret {S A} (a : A) : M S A := fun s => (Ok a, s).
Definition raise {S A} (e : exn) : M S A := fun s => (Raise e, s).
Definition bind {S A B} (m : M S A) (k : A -> M S B) : M S B :=
  fun s => match m s with
           | (Ok a, s') => k a s'
           | (Raise e, s') => (Raise e, s')
           end.
Definition lift {S A} (r : res A) : M S A := fun s => (r, s).
Definition gets {S A} (f : S -> A) : M S A := fun s => (Ok (f s), s).
Definition modify {S} (f : S -> S) : M S unit := fun s => (Ok tt, f s).

(** [try: body  except Exception as e: handler(e)] *)
Definition try_except {S A} (body : M S A) (handler : exn -> M S A) : M S A :=
  fun s => match body s with
           | (Ok a, s') => (Ok a, s')
           | (Raise e, s') => handler e s'
           end.

(** [for x in xs: body(x)] *)
Fixpoint for_each {S A} (xs : list A) (body : A -> M S unit) : M S unit :=
  match xs with
  | [] => ret tt
  | x :: xs' => bind (body x) (fun _ => for_each xs' body)
  end.

#[global] Instance M_ret {S} : MRet (M S) := fun A => @ret S A.
#[global] Instance M_bind {S} : MBind (M S) := fun A B k m => @bind S A B m k.

#[global] Instance res_ret : MRet res := fun A a => Ok a.
#[global] Instance res_bind : MBind res :=
  fun A B k r => match r with Ok a => k a | Raise e => Raise e end.

(** [[f(x) for x in xs]], stopping at the first exception *)
Fixpoint map_res {A B} (f : A -> res B) (xs : list A) : res (list B) :=
  match xs with
  | [] => Ok []
  | x :: xs' => y ← f x; ys ← map_res f xs'; mret (y :: ys)
  end.

(** [l.remove(x)]: the first item equal to [x] goes; [ValueError] when there
    is none. *)
Fixpoint list_remove {A} `{EqDecision A} (x : A) (l : list A) : res (list A) :=
  match l with
  | [] => Raise (ValueError "list.remove(x): x not in list")
  | y :: l' => if decide (y = x) then Ok l'
               else r ← list_remove x l'; mret (y :: r)
  end.

(** ** Floating-point numbers *)

(** Python [float]: IEEE-754 binary64. *)
Module pyfloat.
Definition prec : Z := 53.
Definition emax : Z := 1024.
Definition t := spec_float.
Definition of_Z (n : Z) : t := binary_normalize prec emax n 0 false.
Definition one : t := of_Z 1.
Definition sub : t -> t -> t := SFsub prec emax.
Definition div : t -> t -> t := SFdiv prec emax.
Definition is_finite (v : t) : bool :=
  match v with
  | S754_zero _ | S754_finite _ _ _ => true
  | S754_infinity _ | S754_nan => false
  end.
End pyfloat.

(** NumPy [float32]: IEEE-754 binary32. *)
Module f32.
Definition prec : Z := 24.
Definition emax : Z := 128.
Definition t := spec_float.
Definition nan : t := S754_nan.
Definition zero : t := S754_zero false.
Definition max_float : t := SFmax_float prec emax.
Definition of_Z (n : Z) : t := binary_normalize prec emax n 0 false.
Definition add : t -> t -> t := SFadd prec emax.
Definition mul : t -> t -> t := SFmul prec emax.
(** [a >= b], false as soon as one side is NaN *)
Definition ge (a b : t) : bool := SFleb b a.
Definition lt (a b : t) : bool := SFltb a b.
Definition isnan (v : t) : bool :=
  match v with S754_nan => true | _ => false end.
(** A Python [float] operand of a [float32] array operation is first
    rounded to [float32]. *)
Definition of_float (v : pyfloat.t) : t :=
  match v with
  | S754_finite s m e => binary_round prec emax s m e
  | _ => v
  end.
(** [float(v)]: every binary32 number is a binary64 number; the value is
    kept as it is. *)
Definition to_float (v : t) : pyfloat.t := v.
End f32.

(** ** NumPy arrays of shape (n,4) *)

Module np.

(** One landmark: columns 0..3 are x, y, z and visibility. *)
Record row := Row { c0 : f32.t; c1 : f32.t; c2 : f32.t; c3 : f32.t }.

Abbreviation ndarray := (list row).

Definition row_map (f : f32.t -> f32.t) (r : row) : row :=
  Row (f (c0 r)) (f (c1 r)) (f (c2 r)) (f (c3 r)).
Definition row_map2 (f : f32.t -> f32.t -> f32.t) (r s : row) : row :=
  Row (f (c0 r) (c0 s)) (f (c1 r) (c1 s)) (f (c2 r) (c2 s)) (f (c3 r) (c3 s)).
Definition row_all (p : f32.t -> bool) (r : row) : bool :=
  p (c0 r) && p (c1 r) && p (c2 r) && p (c3 r).

(** [np.full((n, 4), v)] *)
Definition full (n : nat) (v : f32.t) : ndarray := replicate n (Row v v v v).

(** [np.isnan(a).all()] *)
Definition isnan_all (a : ndarray) : bool := forallb (row_all f32.isnan) a.

(** [np.nan_to_num(a, nan=0.0)]: NaN becomes 0.0 and the infinities become
    the largest and the smallest finite [float32]. *)
Definition nan_to_num1 (v : f32.t) : f32.t :=
  match v with
  | S754_nan => f32.zero
  | S754_infinity false => f32.max_float
  | S754_infinity true => SFopp f32.max_float
  | _ => v
  end.
Definition nan_to_num (a : ndarray) : ndarray := map (row_map nan_to_num1) a.

(** [a[:, 3] >= t] *)
Definition col3_ge (a : ndarray) (t : f32.t) : list bool :=
  map (fun r => f32.ge (c3 r) t) a.

(** [mask.any()] *)
Definition any (mask : list bool) : bool := existsb id mask.

(** [np.count_nonzero(mask)] *)
Fixpoint count_nonzero (mask : list bool) : nat :=
  match mask with
  | [] => 0
  | b :: mask' => (if b then 1 else 0) + count_nonzero mask'
  end.

(** The rows selected by a boolean mask, in order. *)
Fixpoint compress (mask : list bool) (a : ndarray) : ndarray :=
  match mask, a with
  | b :: mask', r :: a' =>
      if b then r :: compress mask' a' else compress mask' a'
  | _, _ => []
  end.

(** [a[mask]]: the mask must have one entry per row.  NumPy checks the
    length of a boolean index only when it is not 0: a mask of length 0
    selects no row of any array. *)
Definition getitem_mask (a : ndarray) (mask : list bool) : res ndarray :=
  if Nat.eqb (length mask) 0 || Nat.eqb (length mask) (length a)
  then Ok (compress mask a)
  else Raise (IndexError "boolean index did not match indexed array").

(** The rows selected by the mask are overwritten, in order, by [vals]. *)
Fixpoint place (mask : list bool) (a vals : ndarray) : ndarray :=
  match mask, a with
  | true :: mask', r :: a' =>
      match vals with
      | v :: vals' => v :: place mask' a' vals'
      | [] => r :: place mask' a' []
      end
  | false :: mask', r :: a' => r :: place mask' a' vals
  | _, _ => a
  end.

(** [a[mask] = vals]: [vals] has one row per selected row, or is one row
    that is broadcast over the selection.  As in [getitem_mask], a mask of
    length 0 passes the length check and selects nothing. *)
Definition setitem_mask (a : ndarray) (mask : list bool) (vals : ndarray)
  : res ndarray :=
  if negb (Nat.eqb (length mask) 0 || Nat.eqb (length mask) (length a)) then
    Raise (IndexError "boolean index did not match indexed array")
  else
    let n := count_nonzero mask in
    if Nat.eqb (length vals) n then Ok (place mask a vals)
    else match vals with
         | [v] => Ok (place mask a (replicate n v))
         | _ => Raise (ValueError "shape mismatch")
         end.

(** An elementwise binary operation on two arrays, with NumPy's
    broadcasting of a one-row operand. *)
Definition broadcast2 (f : row -> row -> row) (p q : ndarray) : res ndarray :=
  if Nat.eqb (length p) (length q) then Ok (zip_with f p q)
  else match p, q with
       | [r], _ => Ok (map (f r) q)
       | _, [r] => Ok (map (fun a => f a r) p)
       | _, _ => Raise (ValueError "operands could not be broadcast together")
       end.

End np.

(** ** The heap of array objects *)

Definition loc := nat.
Abbreviation heap := (gmap loc np.ndarray).

(** A new array object holding [a] (also [a.copy()]). *)
Definition alloc (a : np.ndarray) : M heap loc :=
  fun h => let l := fresh (dom h) in (Ok l, <[l := a]> h).

Definition load (l : loc) : M heap np.ndarray :=
  fun h => match h !! l with
           | Some a => (Ok a, h)
           | None => (Raise (PyException "no such object"), h)
           end.

(** In-place update of the array object at [l]. *)
Definition store (l : loc) (a : np.ndarray) : M heap unit :=
  modify (<[l := a]>).

(** ** The WebSocket connections *)

Definition client := nat.

(** The connections whose [send] raises, and the record of the [send] calls
    made: client, text, and whether the text went out. *)
Record network := Network {
  closed : gset client;
  sends : list (client * string * bool);
}.

(** [c.send(text)] *)
Definition send {V} (c : client) (text : string) : M (V * network) unit :=
  fun '(v, n) =>
    if decide (c ∈ closed n)
    then (Raise ConnectionClosed, (v, Network (closed n) (sends n ++ [(c, text, false)])))
    else (Ok tt, (v, Network (closed n) (sends n ++ [(c, text, true)]))).

(** [asyncio.gather] with [return_exceptions=True]: every awaitable runs, and
    an exception is one more result. *)
Fixpoint gather_return_exceptions {S A} (aws : list (M S A)) : M S (list (res A)) :=
  match aws with
  | [] => mret []
  | aw :: aws' =>
      fun s => let '(r, s') := aw s in
               (rs ← gather_return_exceptions aws'; mret (r :: rs)) s'
  end.

(** [if text and clients], on an optional string and a set *)
Definition truthy (text : option string) : option string :=
  match text with
  | Some (String a t) => Some (String a t)
  | _ => None
  end.

(** ** smoothing/: the smoothing strategies *)

(** [ISmoother.update(prev, new)] *)
Class ISmoother (S : Type) :=
  update : S -> np.ndarray -> np.ndarray -> res np.ndarray.

(** smoothing/none.py *)
Inductive NoSmoothing := NoSmoothing_new.

#[global] Instance NoSmoothing_ISmoother : ISmoother NoSmoothing :=
  fun self prev new => Ok new.

(** smoothing/ema.py *)
Record EmaSmoother := EmaSmoother_new { alpha : pyfloat.t }.

(** [(1.0 - alpha) * p + alpha * n] on one [float32] entry: the two Python
    floats [1.0 - alpha] and [alpha] enter the array arithmetic as
    [float32]. *)
Definition ema_blend (alpha : pyfloat.t) (p n : f32.t) : f32.t :=
  f32.add (f32.mul (f32.of_float (pyfloat.sub pyfloat.one alpha)) p)
          (f32.mul (f32.of_float alpha) n).

#[global] Instance EmaSmoother_ISmoother : ISmoother EmaSmoother :=
  fun self prev new =>
    let prev := np.nan_to_num prev in
    np.broadcast2 (np.row_map2 (ema_blend (alpha self))) prev new.

(** A strategy that works entry by entry on arrays of one shape, as both
    strategies of the repository do. *)
Class Elementwise (S : Type) `{ISmoother S} := {
  update1 : S -> f32.t -> f32.t -> f32.t;
  update_elementwise (s : S) (prev new : np.ndarray) :
    length prev = length new ->
    update s prev new = Ok (zip_with (np.row_map2 (update1 s)) prev new);
}.

(** ** mvc/controller.py: the merge engine *)

Record TrackerController (S : Type) := TrackerController_new {
  vis_thresh : pyfloat.t;
  smoother : S;
  _last : loc;
}.
Arguments TrackerController_new {S}.
Arguments vis_thresh {S}.
Arguments smoother {S}.
Arguments _last {S}.

(** [TrackerController.__init__]: [_last] is a new all-NaN (33,4) array. *)
Definition TrackerController_init {S} (vis_thresh : pyfloat.t) (smoother : S)
  : M heap (TrackerController S) :=
  l ← alloc (np.full 33 f32.nan);
  mret (TrackerController_new vis_thresh smoother l).

(** [TrackerController._merge(cur)]: the result is the address of the
    returned array and the controller with its [_last] field as the call
    leaves it. *)
Definition _merge {S} `{ISmoother S} (self : TrackerController S)
    (cur : np.ndarray) : M heap (loc * TrackerController S) :=
  last ← load (_last self);
  if np.isnan_all last then
    let mask := np.col3_ge cur (f32.of_float (vis_thresh self)) in
    rows ← lift (np.getitem_mask cur mask);
    last' ← lift (np.setitem_mask last mask rows);
    _ ← store (_last self) last';
    mret (_last self, self)
  else
    let accept := np.col3_ge cur (f32.of_float (vis_thresh self)) in
    merged ← alloc last;
    _ ← (if np.any accept then
           prev ← lift (np.getitem_mask last accept);
           new ← lift (np.getitem_mask cur accept);
           vals ← lift (update (smoother self) prev new);
           m ← load merged;
           m' ← lift (np.setitem_mask m accept vals);
           store merged m'
         else mret tt);
    mret (merged, TrackerController_new (vis_thresh self) (smoother self) merged).

(** ** server.py: the monolithic server's merge *)

Module server.

Definition VIS_THRESH : pyfloat.t := pyfloat.div (pyfloat.of_Z 1) (pyfloat.of_Z 2).
Definition USE_SMOOTHING : bool := true.
Definition EMA_ALPHA : pyfloat.t := pyfloat.div (pyfloat.of_Z 35) (pyfloat.of_Z 100).

(** [ema_update(prev, new, alpha)]: the entries where [prev] is NaN take
    [new], the others the blend.  The masks [sel_nan] and [~sel_nan] have
    the shape of [prev] and index [new]: an empty [prev] gives an empty
    result whatever the length of [new], otherwise the lengths must agree. *)
Definition ema_update1 (alpha : pyfloat.t) (p n : f32.t) : f32.t :=
  if f32.isnan p then n
  else f32.add (f32.mul (f32.of_float (pyfloat.sub pyfloat.one alpha)) p)
               (f32.mul (f32.of_float alpha) n).

Definition ema_update (prev new : np.ndarray) (alpha : pyfloat.t)
  : res np.ndarray :=
  if Nat.eqb (length prev) 0 || Nat.eqb (length new) (length prev) then
    Ok (zip_with (np.row_map2 (ema_update1 alpha)) prev new)
  else Raise (IndexError "boolean index did not match indexed array").

(** [merge_frame(cur33x4)] over the global [last_good]: the result is the
    address of the returned array, the mask, and the new value of the
    global. *)
Definition merge_frame (last_good : loc) (cur33x4 : np.ndarray)
  : M heap (loc * list bool * loc) :=
  lg ← load last_good;
  if np.isnan_all lg then
    let mask := np.col3_ge cur33x4 (f32.of_float VIS_THRESH) in
    rows ← lift (np.getitem_mask cur33x4 mask);
    lg' ← lift (np.setitem_mask lg mask rows);
    _ ← store last_good lg';
    snapshot ← alloc lg';
    mret (snapshot, mask, last_good)
  else
    let accept := np.col3_ge cur33x4 (f32.of_float VIS_THRESH) in
    merged ← alloc lg;
    prev ← lift (np.getitem_mask lg accept);
    new ← lift (np.getitem_mask cur33x4 accept);
    vals ← (if USE_SMOOTHING then lift (ema_update prev new EMA_ALPHA)
            else mret new);
    m ← load merged;
    m' ← lift (np.setitem_mask m accept vals);
    _ ← store merged m';
    mret (merged, accept, merged).

(** The globals of the broadcast side. *)
Record globals := Globals {
  clients : gset client;
  latest_payload_text : option string;
}.

(** [handler(ws)]: the client is added on entry and discarded when the
    connection has ended. *)
Definition handler_enter (ws : client) : M (globals * network) unit :=
  modify (fun '(g, n) => (Globals ({[ws]} ∪ clients g) (latest_payload_text g), n)).
Definition handler_exit (ws : client) : M (globals * network) unit :=
  modify (fun '(g, n) => (Globals (clients g ∖ {[ws]}) (latest_payload_text g), n)).

(** One turn of the [while] loop of [broadcast_loop]. *)
Definition broadcast_tick : M (globals * network) unit :=
  cs ← gets (fun s => clients (fst s));
  latest ← gets (fun s => latest_payload_text (fst s));
  if decide (cs ≠ ∅) then
    match truthy latest with
    | Some text =>
        results ← gather_return_exceptions (map (fun c => send c text) (elements cs));
        mret tt
    | None => mret tt
    end
  else mret tt.

End server.

(** ** notifier/observer.py and mvc/model.py: the observable model *)

Section PoseModel.

(** [Obs]: the observer objects; [A]: what the model holds and hands out
    (an array object); [W]: the state the observers own. *)
Context {Obs A W : Type} `{EqDecision Obs}.

(** [IObserver.update(data)]: an observer works on its own state and may
    attach or detach observers; it ends normally or raises. *)
Class IObserver := observer_update : Obs -> A -> M (list Obs * W) unit.
Context `{IObserver}.

(** The model's fields [_arr] and [_observers], the observers' state, the
    standard output, and the record of the [update] calls made: observer,
    argument and outcome. *)
Record PoseModel := PoseModel_new {
  _arr : A;
  _observers : list Obs;
  views : W;
  stdout : list string;
  calls : list (Obs * A * res unit);
}.

Definition print (line : string) : M PoseModel unit :=
  modify (fun m => PoseModel_new (_arr m) (_observers m) (views m)
                     (stdout m ++ [line]) (calls m)).

(** [obs.update(a)] *)
Definition call_update (obs : Obs) (a : A) : M PoseModel unit :=
  fun m =>
    let '(r, (observers', views')) := observer_update obs a (_observers m, views m) in
    (r, PoseModel_new (_arr m) observers' views' (stdout m) (calls m ++ [(obs, a, r)])).

Definition attach (observer : Obs) : M PoseModel unit :=
  modify (fun m => PoseModel_new (_arr m) (_observers m ++ [observer]) (views m)
                     (stdout m) (calls m)).

Definition detach (observer : Obs) : M PoseModel unit :=
  observers ← gets _observers;
  observers' ← lift (list_remove observer observers);
  modify (fun m => PoseModel_new (_arr m) observers' (views m) (stdout m) (calls m)).

Definition notify : M PoseModel unit :=
  snapshot ← gets _observers;
  for_each snapshot (fun obs =>
    try_except (a ← gets _arr; call_update obs a)
               (fun e => print ("[Model] Observer failed: " +:+ exn_str e))).

Definition set (arr33x4 : A) : M PoseModel unit :=
  _ ← modify (fun m => PoseModel_new arr33x4 (_observers m) (views m)
                         (stdout m) (calls m));
  notify.

Definition get : M PoseModel A := gets _arr.

End PoseModel.
Arguments IObserver : clear implicits.
Arguments PoseModel : clear implicits.

(** ** payload/adapter.py: the payload adapter *)

(** What the adapter takes from the Python runtime: [float.__repr__] and
    [round(x, ndigits)] on the finite non-zero floats.  Rounding a finite
    float gives a finite float. *)
Class PyFloat := {
  float_repr_finite : bool -> positive -> Z -> string;
  float_round_finite : bool -> positive -> Z -> Z -> pyfloat.t;
  float_round_finite_is_finite s m e ndigits :
    pyfloat.is_finite (float_round_finite s m e ndigits) = true;
}.

Definition dquote : string := String (Ascii.ascii_of_nat 34) EmptyString.

Section Json.
Context `{PyFloat}.

(** [float.__repr__] *)
Definition float_repr (v : pyfloat.t) : string :=
  match v with
  | S754_zero false => "0.0"
  | S754_zero true => "-0.0"
  | S754_finite s m e => float_repr_finite s m e
  | S754_nan => "nan"
  | S754_infinity false => "inf"
  | S754_infinity true => "-inf"
  end.

(** [round(v, ndigits)]: NaN, the infinities and the zeros round to
    themselves. *)
Definition round (v : pyfloat.t) (ndigits : Z) : pyfloat.t :=
  match v with
  | S754_finite s m e => float_round_finite s m e ndigits
  | _ => v
  end.

(** The values [json.dumps] meets in the payload. *)
Inductive json :=
  | JStr (s : string)
  | JInt (n : Z)
  | JFloat (v : pyfloat.t)
  | JList (items : list json)
  | JDict (items : list (string * json)).

(** The encoder's [floatstr], with [allow_nan] left at its default. *)
Definition floatstr (o : pyfloat.t) : string :=
  match o with
  | S754_nan => "NaN"
  | S754_infinity false => "Infinity"
  | S754_infinity true => "-Infinity"
  | _ => float_repr o
  end.

(** A string between quotes; the strings of this payload (its keys and
    the ISO timestamp) hold no character that JSON escapes. *)
Definition encode_basestring (s : string) : string := dquote +:+ s +:+ dquote.

(** [json.dumps(o, separators=(",", ":"))] *)
Fixpoint dumps (o : json) : string :=
  match o with
  | JStr s => encode_basestring s
  | JInt n => pretty n
  | JFloat v => floatstr v
  | JList items =>
      "[" +:+
      (fix go (items : list json) : string :=
         match items with
         | [] => EmptyString
         | x :: items' =>
             match items' with
             | [] => dumps x
             | _ :: _ => dumps x +:+ "," +:+ go items'
             end
         end) items +:+ "]"
  | JDict items =>
      "{" +:+
      (fix go (items : list (string * json)) : string :=
         match items with
         | [] => EmptyString
         | kv :: items' =>
             match items' with
             | [] => encode_basestring (fst kv) +:+ ":" +:+ dumps (snd kv)
             | _ :: _ => encode_basestring (fst kv) +:+ ":" +:+ dumps (snd kv)
                           +:+ "," +:+ go items'
             end
         end) items +:+ "}"
  end.


(** [IPayloadAdapter.to_text(arr33x4)]; [now] is the text of
    [datetime.utcnow().isoformat()] at the call. *)
Class IPayloadAdapter (T : Type) :=
  to_text : T -> string -> np.ndarray -> res string.

Record UnityPoseAdapter := UnityPoseAdapter_new {
  nan_to_zero : bool;
  round_ndigits : option Z;
}.

Definition _num (self : UnityPoseAdapter) (v : f32.t) : pyfloat.t :=
  match round_ndigits self with
  | Some ndigits => round (f32.to_float v) ndigits
  | None => f32.to_float v
  end.

(** [safe[i, 0]], and so on: [IndexError] beyond the last row. *)
Definition getitem (a : np.ndarray) (i : nat) : res np.row :=
  match a !! i with
  | Some r => Ok r
  | None => Raise (IndexError "index is out of bounds for axis 0")
  end.

(** The [pose] list of [to_text]. *)
Definition pose_of (self : UnityPoseAdapter) (arr33x4 : np.ndarray)
  : res (list json) :=
  let safe := if nan_to_zero self then np.nan_to_num arr33x4 else arr33x4 in
  map_res (fun i =>
             r ← getitem safe i;
             mret (JDict [("id", JInt (Z.of_nat i));
                          ("x", JFloat (_num self (np.c0 r)));
                          ("y", JFloat (_num self (np.c1 r)));
                          ("z", JFloat (_num self (np.c2 r)))]))
          (seq 0 33).

(** The [payload] dict of [to_text]. *)
Definition payload_of (self : UnityPoseAdapter) (now : string)
    (arr33x4 : np.ndarray) : res json :=
  pose ← pose_of self arr33x4;
  mret (JDict [("ts", JStr (now +:+ "Z")); ("pose", JList pose)]).

#[global] Instance UnityPoseAdapter_IPayloadAdapter
  : IPayloadAdapter UnityPoseAdapter :=
  fun self now arr33x4 =>
    payload ← payload_of self now arr33x4;
    mret (dumps payload).

End Json.

(** A runtime for running the definitions on examples: floats are written
    as mantissa and binary exponent, and rounding keeps every digit. *)
#[global] Instance PyFloat_exact : PyFloat := {|
  float_repr_finite s m e :=
    (if s then "-" else EmptyString) +:+ pretty (Zpos m) +:+ "p" +:+ pretty e;
  float_round_finite s m e ndigits := S754_finite s m e;
  float_round_finite_is_finite s m e ndigits := eq_refl;
|}.

(** ** transport/websocket_view.py: the broadcast view *)

Record WebSocketView (T : Type) := WebSocketView_new {
  adapter : T;
  _latest_text : option string;
  _clients : gset client;
}.
Arguments WebSocketView_new {T}.
Arguments adapter {T}.
Arguments _latest_text {T}.
Arguments _clients {T}.

Section WebSocketView.
Context {T : Type} `{IPayloadAdapter T}.

Definition WebSocketView_init (adapter : T) : WebSocketView T :=
  WebSocketView_new adapter None ∅.

(** [WebSocketView.update(arr33x4)], called at clock reading [now] *)
Definition ws_update (now : string) (arr33x4 : np.ndarray)
  : M (WebSocketView T * network) unit :=
  self ← gets fst;
  text ← lift (to_text (adapter self) now arr33x4);
  modify (fun '(v, n) => (WebSocketView_new (adapter v) (Some text) (_clients v), n)).

(** [_handler(ws)]: the client is added on entry and discarded when the
    connection has ended. *)
Definition _handler_enter (ws : client) : M (WebSocketView T * network) unit :=
  modify (fun '(v, n) =>
            (WebSocketView_new (adapter v) (_latest_text v) ({[ws]} ∪ _clients v), n)).
Definition _handler_exit (ws : client) : M (WebSocketView T * network) unit :=
  modify (fun '(v, n) =>
            (WebSocketView_new (adapter v) (_latest_text v) (_clients v ∖ {[ws]}), n)).

(** One turn of the [while True] loop of [_broadcast_loop]. *)
Definition _broadcast_tick : M (WebSocketView T * network) unit :=
  text ← gets (fun s => _latest_text (fst s));
  cs ← gets (fun s => _clients (fst s));
  match truthy text with
  | Some text =>
      if decide (cs ≠ ∅) then
        results ← gather_return_exceptions (map (fun c => send c text) (elements cs));
        mret tt
      else mret tt
  | None => mret tt
  end.

(** What happens to the view, one event at a time: the model notifies it,
    a client connects, a connection ends, the broadcast timer fires. *)
Inductive event :=
  | Notified (now : string) (arr33x4 : np.ndarray)
  | Connected (ws : client)
  | Disconnected (ws : client)
  | Tick.

Definition step (ev : event) : M (WebSocketView T * network) unit :=
  match ev with
  | Notified now arr33x4 => ws_update now arr33x4
  | Connected ws => _handler_enter ws
  | Disconnected ws => _handler_exit ws
  | Tick => _broadcast_tick
  end.

(** A run of events; an exception of [update] goes to the notifying model
    and the run goes on. *)
Definition run (evs : list event) : M (WebSocketView T * network) unit :=
  for_each evs (fun ev => try_except (step ev) (fun _ => mret tt)).

End WebSocketView.

(** * Properties *)

(** ** Arrays and masks *)

Module np_facts.
Import np.

Lemma row_eta (r : row) : Row (c0 r) (c1 r) (c2 r) (c3 r) = r.
Proof. by destruct r. Qed.

Lemma col3_ge_length (a : ndarray) (t : f32.t) : length (col3_ge a t) = length a.
Proof. unfold col3_ge. by rewrite length_map. Qed.

Lemma col3_ge_lookup (a : ndarray) (t : f32.t) (k : nat) (r : row) :
  a !! k = Some r -> col3_ge a t !! k = Some (f32.ge (c3 r) t).
Proof. intros Hk. unfold col3_ge. by rewrite list_lookup_fmap, Hk. Qed.

Lemma compress_length (mask : list bool) (a : ndarray) :
  length mask = length a ->
  length (compress mask a) = count_nonzero mask.
Proof.
  revert a. induction mask as [|b mask IH]; intros [|r a] Hlen; simplify_eq/=; [done|].
  destruct b; simpl; by rewrite IH.
Qed.

Lemma compress_zip_with (f : row -> row -> row) (mask : list bool) (a b : ndarray) :
  zip_with f (compress mask a) (compress mask b) = compress mask (zip_with f a b).
Proof.
  revert a b. induction mask as [|m mask IH]; intros [|r a] [|s b]; simpl; try done.
  - destruct m; [done | by destruct (compress mask a)].
  - destruct m; simpl; by rewrite IH.
Qed.

Lemma place_length (mask : list bool) (a vals : ndarray) :
  length (place mask a vals) = length a.
Proof.
  revert a vals. induction mask as [|m mask IH]; intros a vals; [done|].
  destruct m, a as [|r a]; simpl; try done; [destruct vals|]; simpl; by rewrite IH.
Qed.

(** A row the mask leaves out keeps its value, whatever is written. *)
Lemma place_lookup_false (mask : list bool) (a vals : ndarray) (k : nat) :
  mask !! k = Some false -> place mask a vals !! k = a !! k.
Proof.
  revert a vals k. induction mask as [|m mask IH]; intros a vals k Hk; [done|].
  destruct m, a as [|r a], k as [|k]; simplify_eq/=; try done.
  - destruct vals; simpl; eauto.
  - eauto.
Qed.

(** Writing back the rows selected out of [b] gives [b] on the mask. *)
Lemma place_compress_lookup_true (mask : list bool) (a b : ndarray) (k : nat) :
  length mask = length a -> length b = length a ->
  mask !! k = Some true -> place mask a (compress mask b) !! k = b !! k.
Proof.
  revert a b k. induction mask as [|m mask IH]; intros a b k Ha Hb Hk; [done|].
  destruct m, a as [|r a], b as [|s b], k as [|k]; simplify_eq/=; try done; eauto.
Qed.

Lemma any_false_lookup (mask : list bool) (k : nat) :
  any mask = false -> mask !! k = Some true -> False.
Proof.
  revert k. induction mask as [|m mask IH]; intros [|k] Hany Hk; simplify_eq/=.
  apply orb_false_elim in Hany as [_ Hany]. eauto.
Qed.

Lemma isnan_all_lookup (a : ndarray) (k : nat) (r : row) :
  isnan_all a = true -> a !! k = Some r -> r = Row f32.nan f32.nan f32.nan f32.nan.
Proof.
  unfold isnan_all. rewrite forallb_forall. intros Hall Hk.
  assert (Hr : row_all f32.isnan r = true).
  { apply Hall, list_elem_of_In, list_elem_of_lookup. eauto. }
  destruct r as [[] [] [] []]; by simplify_eq/=.
Qed.

Lemma isnan_all_lookup_false (a : ndarray) (k : nat) (r : row) :
  a !! k = Some r -> row_all f32.isnan r = false -> isnan_all a = false.
Proof.
  intros Hk Hr. destruct (isnan_all a) eqn:Hall; [|done].
  pose proof (isnan_all_lookup _ _ _ Hall Hk) as ->. done.
Qed.

(** A visibility below the threshold is not at or above it. *)
Lemma lt_not_ge (v t : f32.t) : f32.lt v t = true -> f32.ge v t = false.
Proof.
  unfold f32.lt, f32.ge, SFltb, SFleb.
  destruct v as [[]|[]| |[] mv ev], t as [[]|[]| |[] mt et]; simpl; try done.
  all: rewrite (Z.compare_antisym ev et);
    change (Pos.compare_cont Eq mt mv) with (Pos.compare_cont (CompOpp Eq) mt mv);
    rewrite <- (Pos.compare_cont_antisym mv mt Eq);
    by destruct (ev ?= et)%Z, (Pos.compare_cont Eq mv mt).
Qed.

Lemma place_any_false (mask : list bool) (a vals : ndarray) :
  any mask = false -> place mask a vals = a.
Proof.
  revert a vals. induction mask as [|m mask IH]; intros a vals Hany; [done|].
  simpl in Hany. apply orb_false_elim in Hany as [-> Hany].
  destruct a as [|r a]; simpl; [done|]. by rewrite IH.
Qed.

Lemma getitem_mask_ok (a : ndarray) (mask : list bool) :
  length mask = length a -> getitem_mask a mask = Ok (compress mask a).
Proof.
  intros Hlen. unfold getitem_mask.
  by rewrite Hlen, Nat.eqb_refl, orb_true_r.
Qed.

Lemma setitem_mask_ok (a : ndarray) (mask : list bool) (vals : ndarray) :
  length mask = length a -> length vals = count_nonzero mask ->
  setitem_mask a mask vals = Ok (place mask a vals).
Proof.
  intros Hlen Hvals. unfold setitem_mask.
  by rewrite Hlen, Nat.eqb_refl, orb_true_r, Hvals, Nat.eqb_refl.
Qed.

End np_facts.

(** ** The smoothing strategies work entry by entry *)

Lemma NoSmoothing_update_elementwise (s : NoSmoothing) (prev new : np.ndarray) :
  length prev = length new ->
  update s prev new = Ok (zip_with (np.row_map2 (fun _ n => n)) prev new).
Proof.
  intros Hlen. unfold update, NoSmoothing_ISmoother. f_equal.
  revert new Hlen. induction prev as [|p prev IH]; intros [|n new] Hlen; simplify_eq/=; [done|].
  unfold np.row_map2 at 1. rewrite np_facts.row_eta. f_equal. by apply IH.
Qed.

Lemma EmaSmoother_update_elementwise (s : EmaSmoother) (prev new : np.ndarray) :
  length prev = length new ->
  update s prev new =
    Ok (zip_with (np.row_map2 (fun p n => ema_blend (alpha s) (np.nan_to_num1 p) n))
          prev new).
Proof.
  intros Hlen. unfold update, EmaSmoother_ISmoother, np.broadcast2, np.nan_to_num.
  rewrite length_map, Hlen, Nat.eqb_refl. f_equal.
  revert new Hlen. induction prev as [|p prev IH]; intros [|n new] Hlen; simplify_eq/=; [done|].
  f_equal. by apply IH.
Qed.

#[global] Instance NoSmoothing_Elementwise : Elementwise NoSmoothing := {|
  update1 _ _ n := n;
  update_elementwise := NoSmoothing_update_elementwise;
|}.

#[global] Instance EmaSmoother_Elementwise : Elementwise EmaSmoother := {|
  update1 s p n := ema_blend (alpha s) (np.nan_to_num1 p) n;
  update_elementwise := EmaSmoother_update_elementwise;
|}.

(** ** The merge engine *)

Section merge_facts.
Import np np_facts.
Context {S : Type} `{ISmoother S}.

(** The seeding branch of [_merge], whatever the strategy: the array at
    [_last] is written in place and its own address is returned. *)
Lemma _merge_seed (self : TrackerController S) (h : heap) (last cur : ndarray) :
  h !! _last self = Some last ->
  isnan_all last = true ->
  length cur = length last ->
  let mask := col3_ge cur (f32.of_float (vis_thresh self)) in
  _merge self cur h =
    (Ok (_last self, self), <[_last self := place mask last (compress mask cur)]> h).
Proof.
  intros Hlast Hnan Hlen mask.
  unfold _merge, mbind, M_bind, bind, load. rewrite Hlast, Hnan.
  fold mask. unfold lift.
  rewrite getitem_mask_ok by (unfold mask; by rewrite col3_ge_length).
  rewrite setitem_mask_ok.
  - done.
  - unfold mask. by rewrite col3_ge_length.
  - apply compress_length. unfold mask. by rewrite col3_ge_length.
Qed.

(** The other branch, for a strategy that works entry by entry: a new
    array is allocated, filled, stored in [_last] and returned. *)
Lemma _merge_blend `{!Elementwise S} (self : TrackerController S) (h : heap)
    (last cur : ndarray) :
  h !! _last self = Some last ->
  isnan_all last = false ->
  length cur = length last ->
  let mask := col3_ge cur (f32.of_float (vis_thresh self)) in
  let l := fresh (dom h) in
  _merge self cur h =
    (Ok (l, TrackerController_new (vis_thresh self) (smoother self) l),
     <[l := place mask last
              (compress mask (zip_with (row_map2 (update1 (smoother self))) last cur))]> h).
Proof.
  intros Hlast Hnan Hlen mask l.
  assert (Hmask : length mask = length last).
  { unfold mask. by rewrite col3_ge_length. }
  unfold _merge, mbind, M_bind, bind, load. rewrite Hlast, Hnan.
  fold mask. unfold alloc. fold l.
  destruct (any mask) eqn:Hany.
  - unfold lift.
    rewrite !getitem_mask_ok by congruence.
    rewrite update_elementwise
      by (rewrite !compress_length by congruence; done).
    rewrite lookup_insert_eq.
    rewrite setitem_mask_ok.
    + unfold store, modify. rewrite insert_insert_eq.
      by rewrite compress_zip_with.
    + done.
    + rewrite compress_zip_with. apply compress_length.
      rewrite length_zip_with. lia.
  - unfold mret, M_ret, ret. by rewrite place_any_false.
Qed.

End merge_facts.

(** Some [float32] and Python [float] constants for the examples. *)
Definition py_0_9 : pyfloat.t := pyfloat.div (pyfloat.of_Z 9) (pyfloat.of_Z 10).
Definition f_0_9 : f32.t := f32.of_float py_0_9.
Definition f_1 : f32.t := f32.of_Z 1.
Definition f_2 : f32.t := f32.of_Z 2.
Definition unknown : np.row := np.Row f32.nan f32.nan f32.nan f32.nan.

Section merge_claims.
Import np np_facts.
Context {S : Type} `{ISmoother S}.

(** C2 (hold-last-good).  Take a landmark index [k] whose stored row [r]
    is not unknown, and an incoming frame whose visibility at [k] is below
    the threshold.  Then [_merge] returns, and the row stored at [k]
    afterwards (in the array that [_last] then names, which is also the
    array returned) is [r] itself: the same four [float32] values, so in
    particular still not unknown. *)
Theorem merge_hold_last_good `{!Elementwise S} (self : TrackerController S)
    (h : heap) (last cur : ndarray) (k : nat) (r c : row) :
  h !! _last self = Some last ->
  length cur = length last ->
  last !! k = Some r ->
  row_all f32.isnan r = false ->
  cur !! k = Some c ->
  f32.lt (c3 c) (f32.of_float (vis_thresh self)) = true ->
  exists ret self' h' stored,
    _merge self cur h = (Ok (ret, self'), h') /\
    ret = _last self' /\
    h' !! _last self' = Some stored /\
    stored !! k = Some r /\
    row_all f32.isnan r = false.
Proof.
  intros Hlast Hlen Hk Hr Hc Hlt.
  pose proof (isnan_all_lookup_false _ _ _ Hk Hr) as Hnan.
  rewrite (_merge_blend self h last cur Hlast Hnan Hlen).
  eexists _, _, _, _. split; [reflexivity|]. split; [done|]. simpl.
  split; [apply lookup_insert_eq|]. split; [|done].
  rewrite place_lookup_false; [done|].
  rewrite (col3_ge_lookup _ _ _ _ Hc). by rewrite (lt_not_ge _ _ Hlt).
Qed.

(** C4 (seeding).  When the stored state is all-unknown, [_merge] returns
    and the state it leaves has, at every index, the incoming row copied as
    it is when its visibility is at or above the threshold, and the unknown
    row otherwise.  In particular, when a single index [k] of the 33 passes
    the gate, the state is the all-unknown array with row [k] replaced by
    the incoming row [k]: landmark [k] populated and the 32 others still
    unknown. *)
Theorem merge_seeds_unknown_state (self : TrackerController S) (h : heap)
    (last cur : ndarray) :
  h !! _last self = Some last ->
  isnan_all last = true ->
  length last = 33 ->
  length cur = 33 ->
  exists ret self' h' stored,
    _merge self cur h = (Ok (ret, self'), h') /\
    h' !! ret = Some stored /\
    h' !! _last self' = Some stored /\
    length stored = 33 /\
    (forall k c, cur !! k = Some c ->
       stored !! k =
         Some (if f32.ge (c3 c) (f32.of_float (vis_thresh self)) then c else unknown)) /\
    (forall k c, cur !! k = Some c ->
       f32.ge (c3 c) (f32.of_float (vis_thresh self)) = true ->
       (forall j c', j <> k -> cur !! j = Some c' ->
          f32.ge (c3 c') (f32.of_float (vis_thresh self)) = false) ->
       stored = <[k := c]> (full 33 f32.nan)).
Proof.
  intros Hlast Hnan Hlast33 Hcur33.
  rewrite (_merge_seed self h last cur Hlast Hnan) by congruence.
  set (mask := col3_ge cur (f32.of_float (vis_thresh self))).
  set (stored := place mask last (compress mask cur)).
  assert (Hpoint : forall k c, cur !! k = Some c ->
    stored !! k =
      Some (if f32.ge (c3 c) (f32.of_float (vis_thresh self)) then c else unknown)).
  { intros k c Hc. unfold stored.
    pose proof (col3_ge_lookup _ (f32.of_float (vis_thresh self)) _ _ Hc) as Hm.
    fold mask in Hm.
    destruct (f32.ge (c3 c) (f32.of_float (vis_thresh self))).
    - rewrite place_compress_lookup_true; try done.
      + unfold mask. rewrite col3_ge_length. congruence.
      + congruence.
    - rewrite place_lookup_false by done.
      destruct (last !! k) as [r|] eqn:Hr.
      + by rewrite (isnan_all_lookup _ _ _ Hnan Hr).
      + apply lookup_ge_None in Hr. apply lookup_lt_Some in Hc. lia. }
  assert (Hstored33 : length stored = 33).
  { unfold stored. by rewrite place_length. }
  exists (_last self), self, (<[_last self := stored]> h), stored.
  split; [done|]. split; [apply lookup_insert_eq|]. split; [apply lookup_insert_eq|].
  split; [done|]. split; [done|].
  intros k c Hc Hge Hothers. apply list_eq. intros j.
  destruct (decide (j = k)) as [->|Hne].
  - rewrite (Hpoint _ _ Hc), Hge.
    rewrite list_lookup_insert_eq; [done|].
    unfold full. rewrite length_replicate. apply lookup_lt_Some in Hc. lia.
  - rewrite list_lookup_insert_ne by done.
    destruct (cur !! j) as [c'|] eqn:Hj.
    + rewrite (Hpoint _ _ Hj), (Hothers _ _ Hne Hj).
      unfold full. rewrite lookup_replicate_2; [done|].
      apply lookup_lt_Some in Hj. lia.
    + apply lookup_ge_None in Hj.
      rewrite !lookup_ge_None_2; [done| |lia].
      unfold full. rewrite length_replicate. lia.
Qed.


End merge_claims.




(** *** Examples of merges *)

(** A controller at threshold 0.5 whose state has landmark 0 at
    (1, 1, 1, visibility 1) and nothing else. *)
Definition seen0 : np.ndarray := np.Row f_1 f_1 f_1 f_1 :: np.full 32 f32.nan.
Definition heap0 : heap := {[ 0 := seen0 ]}.
Definition ctrl_none : TrackerController NoSmoothing :=
  TrackerController_new server.VIS_THRESH NoSmoothing_new 0.
Definition ctrl_ema (alpha : pyfloat.t) : TrackerController EmaSmoother :=
  TrackerController_new server.VIS_THRESH (EmaSmoother_new alpha) 0.

(** A frame with landmark [k] at (v, v, v, visibility [vis]) and the other
    landmarks at zero, visibility included. *)
Definition frame (k : nat) (v vis : f32.t) : np.ndarray :=
  <[k := np.Row v v v vis]> (np.full 33 f32.zero).

Definition row1 : np.row := np.Row f_1 f_1 f_1 f_1.
Definition row0 : np.row := np.Row f32.zero f32.zero f32.zero f32.zero.

Lemma merge_hold_last_good_witness :
  (heap0 !! _last ctrl_none = Some seen0 /\
   length (np.full 33 f32.zero) = length seen0 /\
   seen0 !! 0 = Some row1 /\
   np.row_all f32.isnan row1 = false /\
   np.full 33 f32.zero !! 0 = Some row0 /\
   f32.lt (np.c3 row0) (f32.of_float (vis_thresh ctrl_none)) = true) /\
  exists ret self' h' stored,
    _merge ctrl_none (np.full 33 f32.zero) heap0 = (Ok (ret, self'), h') /\
    ret = _last self' /\
    h' !! _last self' = Some stored /\
    stored !! 0 = Some row1 /\
    np.row_all f32.isnan row1 = false.
Proof.
  split; [repeat split; vm_compute; reflexivity|].
  apply (merge_hold_last_good ctrl_none heap0 seen0 (np.full 33 f32.zero) 0 row1 row0);
    vm_compute; reflexivity.
Defined.

Definition unseen_heap : heap := {[ 0 := np.full 33 f32.nan ]}.

Lemma merge_seeds_unknown_state_witness :
  (unseen_heap !! _last ctrl_none = Some (np.full 33 f32.nan) /\
   np.isnan_all (np.full 33 f32.nan) = true /\
   length (np.full 33 f32.nan) = 33 /\
   length (frame 7 f_2 f_0_9) = 33) /\
  exists ret self' h' stored,
    _merge ctrl_none (frame 7 f_2 f_0_9) unseen_heap = (Ok (ret, self'), h') /\
    h' !! ret = Some stored /\
    h' !! _last self' = Some stored /\
    length stored = 33 /\
    (forall k c, frame 7 f_2 f_0_9 !! k = Some c ->
       stored !! k =
         Some (if f32.ge (np.c3 c) (f32.of_float (vis_thresh ctrl_none)) then c else unknown)) /\
    (forall k c, frame 7 f_2 f_0_9 !! k = Some c ->
       f32.ge (np.c3 c) (f32.of_float (vis_thresh ctrl_none)) = true ->
       (forall j c', j <> k -> frame 7 f_2 f_0_9 !! j = Some c' ->
          f32.ge (np.c3 c') (f32.of_float (vis_thresh ctrl_none)) = false) ->
       stored = <[k := c]> (np.full 33 f32.nan)).
Proof.
  split; [repeat split; vm_compute; reflexivity|].
  apply (merge_seeds_unknown_state ctrl_none unseen_heap
           (np.full 33 f32.nan) (frame 7 f_2 f_0_9));
    vm_compute; reflexivity.
Defined.

Definition row2 : np.row := np.Row f_2 f_2 f_2 f_0_9.



(** ** The EMA strategy on unknown previous values *)

(** [ema_update] of server.py does adopt the new value where the previous
    one is NaN, and blends elsewhere. *)
Lemma server_ema_update_spec (prev new : np.ndarray) (alpha : pyfloat.t) :
  length new = length prev ->
  exists out,
    server.ema_update prev new alpha = Ok out /\
    length out = length prev /\
    forall k p n, prev !! k = Some p -> new !! k = Some n ->
      out !! k =
        Some (np.row_map2
                (fun p n =>
                   if f32.isnan p then n
                   else f32.add
                          (f32.mul (f32.of_float (pyfloat.sub pyfloat.one alpha)) p)
                          (f32.mul (f32.of_float alpha) n)) p n).
Proof.
  intros Hlen. eexists. unfold server.ema_update.
  rewrite Hlen, Nat.eqb_refl, orb_true_r.
  split; [reflexivity|]. split.
  - rewrite length_zip_with. lia.
  - intros k p n Hp Hn. by rewrite lookup_zip_with, Hp, Hn.
Qed.

(** What [EmaSmoother.update] does on one entry whose previous value is
    NaN: the NaN is first turned into 0.0, and the entry becomes
    [(1 - alpha) * 0.0 + alpha * n]. *)
Lemma EmaSmoother_update1_nan (s : EmaSmoother) (n : f32.t) :
  update1 s f32.nan n =
    f32.add (f32.mul (f32.of_float (pyfloat.sub pyfloat.one (alpha s))) f32.zero)
            (f32.mul (f32.of_float (alpha s)) n).
Proof. reflexivity. Qed.

(** C1 fails on [EmaSmoother.update].  With alpha 0.35, an unknown previous
    row and the new row (2, 2, 2, 0.9), the result is (0.7, 0.7, 0.7, 0.315),
    that is alpha times the new row, and not the new row; [ema_update] of
    server.py returns the new row on the same input.  Through the merge: with
    landmark 0 known and landmark 1 unknown, a frame that brings landmark 1
    at (2, 2, 2, visibility 0.9) leaves (0.7, 0.7, 0.7, 0.315) stored at
    index 1. *)
Theorem EmaSmoother_update_scales_unknown_prev :
  let new := np.Row f_2 f_2 f_2 f_0_9 in
  let scaled := np.Row (S754_finite false 11744051 (-24)) (S754_finite false 11744051 (-24))
                       (S754_finite false 11744051 (-24)) (S754_finite false 10569646 (-25)) in
  update (EmaSmoother_new server.EMA_ALPHA) [unknown] [new] = Ok [scaled] /\
  scaled <> new /\
  server.ema_update [unknown] [new] server.EMA_ALPHA = Ok [new] /\
  exists ret self' h' stored,
    _merge (ctrl_ema server.EMA_ALPHA) (frame 1 f_2 f_0_9) heap0 = (Ok (ret, self'), h') /\
    seen0 !! 1 = Some unknown /\
    frame 1 f_2 f_0_9 !! 1 = Some new /\
    f32.ge (np.c3 new) (f32.of_float (vis_thresh (ctrl_ema server.EMA_ALPHA))) = true /\
    h' !! _last self' = Some stored /\
    stored !! 1 = Some scaled.
Proof.
  vm_compute. split; [reflexivity|]. split; [discriminate|]. split; [reflexivity|].
  eexists _, _, _, _. repeat split; reflexivity.
Qed.

(** ** The merge of server.py *)

Section merge_frame_facts.
Import np np_facts.

(** [merge_frame] on a frame of the state's length: the seeding branch
    writes [last_good] in place and returns a copy; the other branch
    allocates the merged array, makes it the new [last_good] and returns
    it. *)
Lemma merge_frame_eq (last_good : loc) (h : heap) (lg cur : ndarray) :
  h !! last_good = Some lg ->
  length cur = length lg ->
  let mask := col3_ge cur (f32.of_float server.VIS_THRESH) in
  server.merge_frame last_good cur h =
    if isnan_all lg then
      let lg' := place mask lg (compress mask cur) in
      let h1 := <[last_good := lg']> h in
      (Ok (fresh (dom h1), mask, last_good), <[fresh (dom h1) := lg']> h1)
    else
      let l := fresh (dom h) in
      (Ok (l, mask, l),
       <[l := place mask lg
                (compress mask
                   (zip_with (row_map2 (server.ema_update1 server.EMA_ALPHA)) lg cur))]> h).
Proof.
  intros Hlg Hlen mask.
  assert (Hmask : length mask = length lg).
  { unfold mask. by rewrite col3_ge_length. }
  unfold server.merge_frame, mbind, M_bind, bind, load. rewrite Hlg.
  fold mask. destruct (isnan_all lg).
  - unfold lift. rewrite getitem_mask_ok by congruence.
    rewrite setitem_mask_ok; [done|done|].
    apply compress_length. congruence.
  - unfold alloc, lift. rewrite !getitem_mask_ok by congruence.
    simpl. unfold server.ema_update.
    rewrite !compress_length, Nat.eqb_refl, orb_true_r by congruence.
    rewrite lookup_insert_eq, compress_zip_with.
    rewrite setitem_mask_ok.
    + unfold store, modify. by rewrite insert_insert_eq.
    + done.
    + apply compress_length. rewrite length_zip_with. lia.
Qed.

(** Hold-last-good in [merge_frame]: a row whose incoming visibility is
    below the threshold is the same in the new [last_good]. *)
Lemma merge_frame_hold_last_good (last_good : loc) (h : heap) (lg cur : ndarray)
    (k : nat) (r c : row) :
  h !! last_good = Some lg ->
  length cur = length lg ->
  lg !! k = Some r ->
  cur !! k = Some c ->
  f32.lt (c3 c) (f32.of_float server.VIS_THRESH) = true ->
  exists ret mask last_good' h' stored,
    server.merge_frame last_good cur h = (Ok (ret, mask, last_good'), h') /\
    h' !! last_good' = Some stored /\
    stored !! k = Some r.
Proof.
  intros Hlg Hlen Hk Hc Hlt.
  rewrite (merge_frame_eq last_good h lg cur Hlg Hlen).
  assert (Hm : col3_ge cur (f32.of_float server.VIS_THRESH) !! k = Some false).
  { rewrite (col3_ge_lookup _ _ _ _ Hc). by rewrite (lt_not_ge _ _ Hlt). }
  destruct (isnan_all lg).
  - eexists _, _, _, _, _. split; [reflexivity|]. split.
    + rewrite lookup_insert_ne; [apply lookup_insert_eq|].
      intros Heq.
      apply (is_fresh (dom (<[last_good :=
               place (col3_ge cur (f32.of_float server.VIS_THRESH)) lg
                 (compress (col3_ge cur (f32.of_float server.VIS_THRESH)) cur)]> h))).
      rewrite Heq. apply elem_of_dom. rewrite lookup_insert_eq. eauto.
    + by rewrite place_lookup_false.
  - eexists _, _, _, _, _. split; [reflexivity|]. split; [apply lookup_insert_eq|].
    by rewrite place_lookup_false.
Qed.

End merge_frame_facts.

(** The end-to-end scenario: threshold 0.5, EMA with alpha 0.35; a first
    frame with landmark 0 at (1, 1, 1, visibility 0.9), a second with
    landmark 0 at (2, 2, 2, visibility 0.9).  The first acceptance adopts the
    frame's row; after the second, landmark 0 is at 1.35 ([float32]). *)
Example end_to_end_scenario :
  let scenario : M heap (np.ndarray * np.ndarray) :=
    c ← TrackerController_init server.VIS_THRESH (EmaSmoother_new server.EMA_ALPHA);
    '(l1, c) ← _merge c (frame 0 f_1 f_0_9);
    a1 ← load l1;
    '(l2, c) ← _merge c (frame 0 f_2 f_0_9);
    a2 ← load l2;
    mret (take 1 a1, take 1 a2) in
  let f_1_35 := S754_finite false 11324620 (-23) in
  fst (scenario ∅) =
    Ok ([np.Row f_1 f_1 f_1 f_0_9],
        [np.Row f_1_35 f_1_35 f_1_35 (S754_finite false 15099494 (-24))]).
Proof. vm_compute. reflexivity. Qed.

(** ** What [_merge] hands out *)

(** The address returned by [_merge] is the one left in [_last]: the caller
    gets the engine's own array object, in both branches. *)
Lemma _merge_returns_last {S : Type} `{ISmoother S} (self : TrackerController S)
    (cur : np.ndarray) (h h' : heap) (l : loc) (self' : TrackerController S) :
  _merge self cur h = (Ok (l, self'), h') -> l = _last self'.
Proof.
  unfold _merge, mbind, M_bind, bind, load.
  destruct (h !! _last self) as [last|]; [|done].
  destruct (np.isnan_all last).
  - unfold lift, store, modify, mret, M_ret, ret.
    destruct (np.getitem_mask cur _); [|done].
    destruct (np.setitem_mask last _ _); [|done].
    intros Heq. by simplify_eq.
  - unfold alloc. destruct (np.any _).
    + unfold lift, store, modify, mret, M_ret, ret.
      destruct (np.getitem_mask last _); [|done].
      destruct (np.getitem_mask cur _); [|done].
      destruct (update _ _ _); [|done].
      rewrite lookup_insert_eq.
      destruct (np.setitem_mask last _ _); [|done].
      intros Heq. by simplify_eq.
    + unfold mret, M_ret, ret. intros Heq. by simplify_eq.
Qed.

(** C5 fails on [_merge].  A new controller merges a frame in which no
    landmark passes the gate, then a frame that brings landmark 0.  The first
    call returns the address of [_last] itself, holding the all-unknown
    array; the second call writes landmark 0 into that same array object, so
    the array handed out by the first call has changed. *)
Theorem merge_hands_out_its_storage :
  let frame_a := np.full 33 f32.zero in
  let frame_b := frame 0 f_2 f_0_9 in
  exists c h0 l1 c1 h1 l2 c2 h2,
    TrackerController_init server.VIS_THRESH NoSmoothing_new ∅ = (Ok c, h0) /\
    _merge c frame_a h0 = (Ok (l1, c1), h1) /\
    l1 = _last c1 /\
    h1 !! l1 = Some (np.full 33 f32.nan) /\
    _merge c1 frame_b h1 = (Ok (l2, c2), h2) /\
    l2 = l1 /\
    h2 !! l1 = Some (<[0 := np.Row f_2 f_2 f_2 f_0_9]> (np.full 33 f32.nan)) /\
    h2 !! l1 <> h1 !! l1.
Proof.
  intros frame_a frame_b. eexists _, _, _, _, _, _, _, _.
  split; [vm_compute; reflexivity|].
  split; [vm_compute; reflexivity|].
  split; [reflexivity|].
  split; [vm_compute; reflexivity|].
  split; [vm_compute; reflexivity|].
  split; [reflexivity|].
  split; [vm_compute; reflexivity|].
  vm_compute. discriminate.
Qed.

(** ** The observable model *)

Section PoseModel_facts.
Context {Obs A W : Type} `{EqDecision Obs} `{!IObserver Obs A W}.

Lemma list_remove_not_in (x : Obs) (l : list Obs) :
  (x ∉ l) -> list_remove x l = Raise (ValueError "list.remove(x): x not in list").
Proof.
  induction l as [|y l IH]; intros Hx; simpl; [done|].
  apply not_elem_of_cons in Hx as [Hne Hx].
  rewrite decide_False by done. by rewrite IH.
Qed.

Lemma list_remove_in (x : Obs) (l : list Obs) :
  x ∈ l ->
  exists l1 l2, l = l1 ++ x :: l2 /\ (x ∉ l1) /\ list_remove x l = Ok (l1 ++ l2).
Proof.
  induction l as [|y l IH]; intros Hx; [by apply elem_of_nil in Hx|].
  simpl. destruct (decide (y = x)) as [->|Hne].
  - exists [], l. split; [done|]. split; [apply not_elem_of_nil|done].
  - apply elem_of_cons in Hx as [->|Hx]; [done|].
    destruct (IH Hx) as (l1 & l2 & -> & Hl1 & ->).
    exists (y :: l1), l2. split; [done|]. split; [|done].
    apply not_elem_of_cons. split; [congruence|done].
Qed.

(** C10.  [detach] of an observer that is not attached raises
    [ValueError] and leaves the model as it was; [detach] of an attached
    observer returns and removes the first occurrence only: the observers
    before it, none of them equal to it, and all those after it stay, in
    order. *)
Theorem detach_raises_or_removes_first (observer : Obs) (m : PoseModel Obs A W) :
  ((observer ∉ _observers m) ->
     detach observer m =
       (Raise (ValueError "list.remove(x): x not in list"), m)) /\
  (observer ∈ _observers m ->
     exists l1 l2,
       _observers m = l1 ++ observer :: l2 /\
       (observer ∉ l1) /\
       detach observer m =
         (Ok tt, PoseModel_new (_arr m) (l1 ++ l2) (views m) (stdout m) (calls m))).
Proof.
  unfold detach, mbind, M_bind, bind, gets, lift, modify. split.
  - intros Hx. by rewrite list_remove_not_in.
  - intros Hx. destruct (list_remove_in _ _ Hx) as (l1 & l2 & Hl & Hl1 & Hrm).
    exists l1, l2. by rewrite Hrm.
Qed.

(** The line [notify] prints for an outcome, if any. *)
Definition report (r : res unit) : option string :=
  match r with
  | Ok _ => None
  | Raise e => Some ("[Model] Observer failed: " +:+ exn_str e)
  end.

(** One turn of the loop of [notify]. *)
Lemma notify_turn (obs : Obs) (m : PoseModel Obs A W) :
  exists r m',
    try_except (a ← gets _arr; call_update obs a)
               (fun e => print ("[Model] Observer failed: " +:+ exn_str e)) m
      = (Ok tt, m') /\
    _arr m' = _arr m /\
    calls m' = calls m ++ [(obs, _arr m, r)] /\
    stdout m' = stdout m ++ from_option (fun line => [line]) [] (report r).
Proof.
  unfold try_except, mbind, M_bind, bind, gets, call_update.
  destruct (observer_update obs (_arr m) (_observers m, views m))
    as [[[]|e] [observers' views']] eqn:Hupd; simpl.
  - eexists (Ok tt), _. split; [done|]. simpl. by rewrite app_nil_r.
  - eexists (Raise e), _. by split.
Qed.

Lemma notify_loop (snapshot : list Obs) (m : PoseModel Obs A W) :
  exists outcomes m',
    for_each snapshot (fun obs =>
      try_except (a ← gets _arr; call_update obs a)
                 (fun e => print ("[Model] Observer failed: " +:+ exn_str e))) m
      = (Ok tt, m') /\
    length outcomes = length snapshot /\
    _arr m' = _arr m /\
    calls m' = calls m ++ zip_with (fun obs r => (obs, _arr m, r)) snapshot outcomes /\
    stdout m' = stdout m ++ omap report outcomes.
Proof.
  revert m. induction snapshot as [|obs snapshot IH]; intros m.
  - exists [], m. simpl. by rewrite !app_nil_r.
  - destruct (notify_turn obs m) as (r & m1 & Hturn & Harr & Hcalls & Hout).
    destruct (IH m1) as (outcomes & m' & Hloop & Hlen & Harr' & Hcalls' & Hout').
    exists (r :: outcomes), m'. simpl. unfold bind. rewrite Hturn, Hloop.
    split; [done|]. split; [by rewrite Hlen|]. split; [congruence|].
    rewrite Hcalls', Hcalls, Hout', Hout, Harr, <- !app_assoc.
    split; [done|]. by destruct r.
Qed.

(** What the observers of a snapshot do with the array [a], one after the
    other: [observer_update] of the first on the observers' state [s], of
    the second on the state the first has left, and so on, whether the ones
    before returned or raised.  The result is the outcomes, in order, and
    the state left by the last. *)
Fixpoint deliver (a : A) (snapshot : list Obs) (s : list Obs * W)
  : list (res unit) * (list Obs * W) :=
  match snapshot with
  | [] => ([], s)
  | obs :: rest =>
      let '(r, s1) := observer_update obs a s in
      let '(rs, s2) := deliver a rest s1 in
      (r :: rs, s2)
  end.

Lemma deliver_length (a : A) (snapshot : list Obs) (s : list Obs * W) :
  length (deliver a snapshot s).1 = length snapshot.
Proof.
  revert s. induction snapshot as [|obs rest IH]; intros s; simpl; [done|].
  destruct (observer_update obs a s) as [r s1].
  specialize (IH s1). destruct (deliver a rest s1) as [rs s2]. simpl in *.
  by rewrite IH.
Qed.

Lemma deliver_app (a : A) (l1 l2 : list Obs) (s : list Obs * W) :
  deliver a (l1 ++ l2) s =
    ((deliver a l1 s).1 ++ (deliver a l2 (deliver a l1 s).2).1,
     (deliver a l2 (deliver a l1 s).2).2).
Proof.
  revert s. induction l1 as [|obs l1 IH]; intros s; simpl.
  - by destruct (deliver a l2 s).
  - destruct (observer_update obs a s) as [r s1]. rewrite IH.
    by destruct (deliver a l1 s1) as [rs s2].
Qed.

(** The outcome recorded for an observer of the snapshot is the outcome of
    its own [observer_update], run on the state left by the observers before
    it. *)
Lemma deliver_lookup (a : A) (l1 l2 : list Obs) (obs : Obs) (s : list Obs * W) :
  (deliver a (l1 ++ obs :: l2) s).1 !! length l1 =
    Some (observer_update obs a (deliver a l1 s).2).1.
Proof.
  rewrite deliver_app. cbn [fst].
  rewrite lookup_app_r by (rewrite deliver_length; lia).
  rewrite deliver_length, Nat.sub_diag. simpl.
  destruct (observer_update obs a (deliver a l1 s).2) as [r s1].
  by destruct (deliver a l2 s1).
Qed.

(** One turn of the loop of [notify], with what the observer does. *)
Lemma notify_turn_delivers (obs : Obs) (m : PoseModel Obs A W) (r : res unit)
    (observers' : list Obs) (views' : W) :
  observer_update obs (_arr m) (_observers m, views m) = (r, (observers', views')) ->
  try_except (a ← gets _arr; call_update obs a)
             (fun e => print ("[Model] Observer failed: " +:+ exn_str e)) m
    = (Ok tt,
       PoseModel_new (_arr m) observers' views'
         (stdout m ++ from_option (fun line => [line]) [] (report r))
         (calls m ++ [(obs, _arr m, r)])).
Proof.
  intros Hupd. unfold try_except, mbind, M_bind, bind, gets, call_update.
  rewrite Hupd. destruct r as [[]|e]; simpl; [|done].
  by rewrite app_nil_r.
Qed.

Lemma notify_loop_delivers (snapshot : list Obs) (m : PoseModel Obs A W)
    (outcomes : list (res unit)) (observers' : list Obs) (views' : W) :
  deliver (_arr m) snapshot (_observers m, views m) = (outcomes, (observers', views')) ->
  for_each snapshot (fun obs =>
    try_except (a ← gets _arr; call_update obs a)
               (fun e => print ("[Model] Observer failed: " +:+ exn_str e))) m
    = (Ok tt,
       PoseModel_new (_arr m) observers' views'
         (stdout m ++ omap report outcomes)
         (calls m ++ zip_with (fun obs r => (obs, _arr m, r)) snapshot outcomes)).
Proof.
  revert m outcomes. induction snapshot as [|obs rest IH]; intros m outcomes Hd.
  - simpl in Hd. simplify_eq. simpl. rewrite !app_nil_r. by destruct m.
  - simpl in Hd.
    destruct (observer_update obs (_arr m) (_observers m, views m))
      as [r [o1 v1]] eqn:Hupd.
    destruct (deliver (_arr m) rest (o1, v1)) as [rs [o2 v2]] eqn:Hrest.
    simplify_eq. simpl. unfold bind.
    rewrite (notify_turn_delivers obs m r o1 v1 Hupd).
    rewrite (IH (PoseModel_new (_arr m) o1 v1
                   (stdout m ++ from_option (fun line => [line]) [] (report r))
                   (calls m ++ [(obs, _arr m, r)])) rs Hrest).
    simpl. rewrite <- !app_assoc. by destruct r.
Qed.

(** C8.  [notify] returns normally, whatever the observers do.  It runs
    [update] with the model's array on every observer that was attached when
    it started, once each and in attachment order, each on the state the
    observers before it have left: the model's list of observers and the
    observers' own state are afterwards what these updates have made of
    them.  The outcome recorded for each observer is the outcome of its own
    update, also when an observer before it has raised; the calls that
    raised are the ones reported on the standard output, one line each, in
    order. *)
Theorem notify_reaches_every_observer (m : PoseModel Obs A W) :
  exists outcomes observers' views',
    deliver (_arr m) (_observers m) (_observers m, views m)
      = (outcomes, (observers', views')) /\
    notify m =
      (Ok tt,
       PoseModel_new (_arr m) observers' views'
         (stdout m ++ omap report outcomes)
         (calls m ++
            zip_with (fun obs r => (obs, _arr m, r)) (_observers m) outcomes)) /\
    length outcomes = length (_observers m) /\
    (forall l1 obs l2, _observers m = l1 ++ obs :: l2 ->
       outcomes !! length l1 =
         Some (observer_update obs (_arr m)
                 (deliver (_arr m) l1 (_observers m, views m)).2).1).
Proof.
  destruct (deliver (_arr m) (_observers m) (_observers m, views m))
    as [outcomes [observers' views']] eqn:Hd.
  exists outcomes, observers', views'. split; [done|]. split.
  { unfold notify, mbind, M_bind, bind, gets.
    by apply notify_loop_delivers. }
  split.
  { pose proof (deliver_length (_arr m) (_observers m) (_observers m, views m)) as Hlen.
    by rewrite Hd in Hlen. }
  intros l1 obs l2 Hobs.
  pose proof (deliver_lookup (_arr m) l1 l2 obs (_observers m, views m)) as Hk.
  rewrite <- Hobs in Hk at 1. by rewrite Hd in Hk.
Qed.

(** [set] installs the very object it is given and notifies. *)
Lemma set_installs_argument (a : A) (m : PoseModel Obs A W) :
  exists m', set a m = (Ok tt, m') /\ _arr m' = a.
Proof.
  destruct (notify_loop (_observers m)
              (PoseModel_new a (_observers m) (views m) (stdout m) (calls m)))
    as (outcomes & m' & Hloop & _ & Harr & _).
  exists m'. split; [|done].
  etransitivity; [|exact Hloop]. reflexivity.
Qed.

End PoseModel_facts.

(** An example.  Observers are numbers and their state is the log of what
    they received.  Observer 1 logs the array, detaches every observer but
    itself and raises; observer 2 logs the array and returns.  With both
    attached, [notify] returns normally: observer 2, attached when the call
    started, has received the array after the failure of observer 1, the
    failure is reported on the output, and only observer 1 is attached
    afterwards. *)
Definition logging_observer : IObserver nat nat (list (nat * nat)) :=
  fun obs a s =>
    let '(observers, log) := s in
    if Nat.eqb obs 1
    then (Raise (PyException "boom"), ([obs], log ++ [(obs, a)]))
    else (Ok tt, (observers, log ++ [(obs, a)])).

Example notify_after_failure :
  @notify nat nat (list (nat * nat)) logging_observer
    (PoseModel_new 7 [1; 2] [] [] [])
  = (Ok tt,
     PoseModel_new 7 [1] [(1, 7); (2, 7)]
       ["[Model] Observer failed: boom"]
       [(1, 7, Raise (PyException "boom")); (2, 7, Ok tt)]).
Proof. reflexivity. Qed.

(** ** The payload adapter *)

Section adapter_facts.
Context `{PyFloat}.
Import np.

Lemma map_res_ok {X Y : Type} (f : X -> res Y) (g : X -> Y) (xs : list X) :
  (forall x, x ∈ xs -> f x = Ok (g x)) -> map_res f xs = Ok (map g xs).
Proof.
  induction xs as [|x xs IH]; intros Hf; simpl; [done|].
  rewrite Hf by apply list_elem_of_here. simpl.
  rewrite IH; [done|]. intros y Hy. apply Hf. by apply list_elem_of_further.
Qed.

Lemma nan_is_nan (v : f32.t) : f32.isnan v = true -> v = f32.nan.
Proof. by destruct v. Qed.







(** The record [to_text] builds for landmark [i] out of the row [r] of
    [safe]. *)
Definition record_of (self : UnityPoseAdapter) (r : row) (i : nat) : json :=
  JDict [("id", JInt (Z.of_nat i));
         ("x", JFloat (_num self (c0 r)));
         ("y", JFloat (_num self (c1 r)));
         ("z", JFloat (_num self (c2 r)))].

Lemma pose_of_ok (self : UnityPoseAdapter) (arr : ndarray) :
  length arr = 33 ->
  pose_of self arr =
    Ok (map (fun i =>
               record_of self
                 (default unknown
                    ((if nan_to_zero self then nan_to_num arr else arr) !! i)) i)
            (seq 0 33)).
Proof.
  intros Hlen. unfold pose_of.
  set (safe := if nan_to_zero self then nan_to_num arr else arr).
  assert (Hsafe : length safe = 33).
  { unfold safe, nan_to_num. destruct (nan_to_zero self); by rewrite ?length_map. }
  apply map_res_ok. intros i Hi.
  apply elem_of_seq in Hi as [_ Hi].
  destruct (lookup_lt_is_Some_2 safe i) as [r Hr]; [lia|].
  unfold getitem. by rewrite Hr.
Qed.

(** The text of [to_text] on a 33-row state starts with a brace: it is
    never the empty string. *)
Lemma to_text_ok (self : UnityPoseAdapter) (now : string) (arr : ndarray) :
  length arr = 33 ->
  exists a text, to_text self now arr = Ok (String a text).
Proof.
  intros Hlen. unfold to_text, UnityPoseAdapter_IPayloadAdapter, payload_of.
  rewrite pose_of_ok by done. simpl. eauto.
Qed.


End adapter_facts.


(** ** The broadcast view *)

(** What one send to client [c] leaves in the record of sends. *)
Definition sent (closed : gset client) (text : string) (c : client)
  : client * string * bool :=
  (c, text, bool_decide (c ∉ closed)).

Lemma send_outcome {V : Type} (c : client) (text : string) (v : V) (n : network) :
  send c text (v, n) =
    (if decide (c ∈ closed n) then Raise ConnectionClosed else Ok tt,
     (v, Network (closed n) (sends n ++ [sent (closed n) text c]))).
Proof.
  unfold send, sent. destruct (decide (c ∈ closed n)).
  - by rewrite bool_decide_eq_false_2 by (by intros []).
  - by rewrite bool_decide_eq_true_2.
Qed.

Lemma gather_sends {V : Type} (text : string) (cs : list client) (v : V) (n : network) :
  exists results,
    gather_return_exceptions (map (fun c => send c text) cs) (v, n) =
      (Ok results, (v, Network (closed n) (sends n ++ map (sent (closed n) text) cs))) /\
    length results = length cs.
Proof.
  revert n. induction cs as [|c cs IH]; intros n.
  - exists []. simpl. rewrite app_nil_r. by destruct n.
  - cbn [map gather_return_exceptions]. rewrite send_outcome.
    destruct (IH (Network (closed n) (sends n ++ [sent (closed n) text c])))
      as (results & Hrun & Hlen).
    eexists (_ :: results).
    unfold mbind, M_bind, bind. rewrite Hrun. simpl.
    rewrite <- app_assoc. by rewrite Hlen.
Qed.

Lemma for_each_app {S X : Type} (xs ys : list X) (body : X -> M S unit) (s : S) :
  for_each (xs ++ ys) body s =
    match for_each xs body s with
    | (Ok _, s') => for_each ys body s'
    | (Raise e, s') => (Raise e, s')
    end.
Proof.
  revert s. induction xs as [|x xs IH]; intros s; simpl; [done|].
  unfold bind. destruct (body x s) as [[[]|e] s']; [apply IH|done].
Qed.

Section view_facts.
Context {T : Type} `{IPayloadAdapter T}.

(** A tick with a payload and a client: one [send] per client of the set,
    all with the same text; the exceptions stay in the results of
    [gather]; the view itself, client set included, is left as it was. *)
Lemma tick_sends (v : WebSocketView T) (n : network) (text : string) :
  truthy (_latest_text v) = Some text ->
  _clients v <> ∅ ->
  _broadcast_tick (v, n) =
    (Ok tt, (v, Network (closed n)
                  (sends n ++ map (sent (closed n) text) (elements (_clients v))))).
Proof.
  intros Htext Hcs.
  unfold _broadcast_tick, mbind, M_bind, bind, gets. simpl. rewrite Htext.
  rewrite decide_True by done.
  destruct (gather_sends text (elements (_clients v)) v n) as (results & -> & _).
  done.
Qed.

(** A tick without payload or without client does nothing. *)
Lemma tick_idle (v : WebSocketView T) (n : network) :
  truthy (_latest_text v) = None \/ _clients v = ∅ ->
  _broadcast_tick (v, n) = (Ok tt, (v, n)).
Proof.
  intros Hidle.
  unfold _broadcast_tick, mbind, M_bind, bind, gets. simpl.
  destruct (truthy (_latest_text v)) as [text|]; [|done].
  destruct Hidle as [|Hcs]; [done|]. by rewrite decide_False by (by intros []).
Qed.

(** Notifications touch the payload slot only. *)
Lemma run_notified (earlier : list (string * np.ndarray)) (v : WebSocketView T)
    (n : network) :
  exists latest,
    run (map (fun '(now, arr) => Notified now arr) earlier) (v, n) =
      (Ok tt, (WebSocketView_new (adapter v) latest (_clients v), n)).
Proof.
  revert v. induction earlier as [|[now arr] earlier IH]; intros v.
  - exists (_latest_text v). by destruct v.
  - unfold run in *. simpl. unfold bind, try_except, ws_update, mbind, M_bind, bind, gets, lift.
    simpl. destruct (to_text (adapter v) now arr) as [text|e]; simpl.
    + apply (IH (WebSocketView_new (adapter v) (Some text) (_clients v))).
    + apply IH.
Qed.

(** N notifications and then a tick: one send per client, with the text
    of the last notification. *)
Lemma run_notified_tick (earlier : list (string * np.ndarray)) (now : string)
    (arr : np.ndarray) (v : WebSocketView T) (n : network) (a : Ascii.ascii)
    (text : string) :
  to_text (adapter v) now arr = Ok (String a text) ->
  run (map (fun '(now, arr) => Notified now arr) earlier ++ [Notified now arr; Tick])
      (v, n) =
    (Ok tt,
     (WebSocketView_new (adapter v) (Some (String a text)) (_clients v),
      if decide (_clients v = ∅) then n
      else Network (closed n)
             (sends n ++ map (sent (closed n) (String a text))
                             (elements (_clients v))))).
Proof.
  intros Htext. unfold run. rewrite for_each_app.
  destruct (run_notified earlier v n) as (latest & Hrun).
  unfold run in Hrun. rewrite Hrun. simpl.
  unfold bind at 1. unfold try_except at 1.
  unfold ws_update, mbind, M_bind, bind, gets, lift. simpl. rewrite Htext. simpl.
  unfold try_except.
  destruct (decide (_clients v = ∅)) as [Hcs|Hcs].
  - rewrite tick_idle by (by right). done.
  - erewrite tick_sends by done. done.
Qed.

End view_facts.

(** C6.  The view has one payload slot.  After any N notifications and
    then one more with a 33-row state, all before the next tick, that tick
    makes exactly one [send] per client of the set, each with the text the
    adapter gave for the last state; nothing of the earlier ones goes out. *)
Theorem broadcast_sends_latest_only `{PyFloat} (v : WebSocketView UnityPoseAdapter)
    (n : network) (earlier : list (string * np.ndarray)) (now : string)
    (arr : np.ndarray) :
  length arr = 33 ->
  exists text v' n',
    to_text (adapter v) now arr = Ok text /\
    run (map (fun '(now, arr) => Notified now arr) earlier ++ [Notified now arr; Tick])
        (v, n) = (Ok tt, (v', n')) /\
    _latest_text v' = Some text /\
    _clients v' = _clients v /\
    closed n' = closed n /\
    sends n' = sends n ++ map (sent (closed n) text) (elements (_clients v)) /\
    NoDup (elements (_clients v)) /\
    (forall c, c ∈ elements (_clients v) <-> c ∈ _clients v).
Proof.
  intros Hlen.
  destruct (to_text_ok (adapter v) now arr Hlen) as (a & text & Htext).
  eexists _, _, _. split; [exact Htext|].
  split; [by apply run_notified_tick|]. simpl.
  split; [done|]. split; [done|].
  split; [by destruct (decide (_clients v = ∅))|].
  split.
  - destruct (decide (_clients v = ∅)) as [Hcs|Hcs]; [|done].
    rewrite Hcs, elements_empty. simpl. by rewrite app_nil_r.
  - split; [apply NoDup_elements|]. intros c. apply elem_of_elements.
Qed.


Section tick_claims.
Context {T : Type} `{IPayloadAdapter T}.


End tick_claims.

(** The loop of server.py does the same: its turn leaves the globals, the
    client set among them, as they were. *)
Lemma server_tick_keeps_clients (g : server.globals) (n : network) :
  exists n', server.broadcast_tick (g, n) = (Ok tt, (g, n')).
Proof.
  unfold server.broadcast_tick, mbind, M_bind, bind, gets. simpl.
  destruct (decide (server.clients g <> ∅)); [|by eexists].
  destruct (truthy (server.latest_payload_text g)) as [text|]; [|by eexists].
  destruct (gather_sends text (elements (server.clients g)) g n) as (results & -> & _).
  by eexists.
Qed.

(** *** Examples of broadcasts *)

Definition view0 : WebSocketView UnityPoseAdapter :=
  WebSocketView_new (UnityPoseAdapter_new true None) None ({[3; 5]} : gset client).
Definition net0 : network := Network {[5]} [].

Lemma broadcast_sends_latest_only_witness :
  length (np.full 33 f32.zero) = 33 /\
  exists text v' n',
    to_text (adapter view0) "t3" (np.full 33 f32.zero) = Ok text /\
    run (map (fun '(now, arr) => Notified now arr)
             [("t1", np.full 33 f32.nan); ("t2", seen0)]
           ++ [Notified "t3" (np.full 33 f32.zero); Tick])
        (view0, net0) = (Ok tt, (v', n')) /\
    _latest_text v' = Some text /\
    _clients v' = _clients view0 /\
    closed n' = closed net0 /\
    sends n' = sends net0 ++ map (sent (closed net0) text) (elements (_clients view0)) /\
    NoDup (elements (_clients view0)) /\
    (forall c, c ∈ elements (_clients view0) <-> c ∈ _clients view0).
Proof.
  split; [reflexivity|].
  apply (broadcast_sends_latest_only view0 net0
           [("t1", np.full 33 f32.nan); ("t2", seen0)] "t3" (np.full 33 f32.zero)).
  reflexivity.
Defined.



(** * Further properties *)

(** ** More on the merge engine *)

Section more_merge_facts.
Import np np_facts.

(** A visibility that passes the gate is not NaN. *)
Lemma ge_not_nan (v t : f32.t) : f32.ge v t = true -> f32.isnan v = false.
Proof. unfold f32.ge, SFleb. by destruct t as [[]|[]| |[] mt et], v as [[]|[]| |[] mv ev]. Qed.

(** Writing back the rows selected out of [b]: [b] on the mask, [a] off
    the mask. *)
Lemma place_compress_lookup (mask : list bool) (a b : ndarray) (k : nat) (m : bool) :
  length mask = length a -> length b = length a ->
  mask !! k = Some m ->
  place mask a (compress mask b) !! k = if m then b !! k else a !! k.
Proof.
  intros Ha Hb Hk. destruct m.
  - by apply place_compress_lookup_true.
  - by apply place_lookup_false.
Qed.

Lemma isnan_all_false_intro (a : ndarray) (k : nat) (r : row) :
  a !! k = Some r -> row_all f32.isnan r = false -> isnan_all a = false.
Proof. apply isnan_all_lookup_false. Qed.

Lemma isnan_all_false_elim (a : ndarray) :
  isnan_all a = false -> exists k r, a !! k = Some r /\ row_all f32.isnan r = false.
Proof.
  induction a as [|r a IH]; [done|]. simpl.
  destruct (row_all f32.isnan r) eqn:Hr; simpl.
  - intros (k & r' & Hk & Hr')%IH. by exists (S k), r'.
  - intros _. by exists 0, r.
Qed.

Context {S : Type} `{ISmoother S}.

(** The number of rows after one merge. *)
Lemma _merge_rows `{!Elementwise S} (self : TrackerController S) (h : heap)
    (last cur : ndarray) :
  h !! _last self = Some last ->
  length cur = length last ->
  exists ret self' h' stored,
    _merge self cur h = (Ok (ret, self'), h') /\
    smoother self' = smoother self /\
    vis_thresh self' = vis_thresh self /\
    ret = _last self' /\
    h' !! _last self' = Some stored /\
    length stored = length last.
Proof.
  intros Hlast Hlen. destruct (isnan_all last) eqn:Hnan.
  - rewrite (_merge_seed self h last cur Hlast Hnan Hlen).
    eexists _, _, _, _. split; [reflexivity|]. do 3 (split; [done|]).
    split; [apply lookup_insert_eq|]. apply place_length.
  - rewrite (_merge_blend self h last cur Hlast Hnan Hlen).
    eexists _, _, _, _. split; [reflexivity|]. simpl. do 3 (split; [done|]).
    split; [apply lookup_insert_eq|]. apply place_length.
Qed.

(** X2.  For a strategy that works entry by entry, the array stored after a
    merge of a frame of the state's length has the state's number of rows,
    in both branches. *)
Theorem merge_keeps_shape `{!Elementwise S} (self : TrackerController S) (h : heap)
    (last cur : ndarray) :
  h !! _last self = Some last ->
  length cur = length last ->
  exists ret self' h' stored,
    _merge self cur h = (Ok (ret, self'), h') /\
    h' !! _last self' = Some stored /\
    length stored = length last.
Proof.
  intros Hlast Hlen.
  destruct (_merge_rows self h last cur Hlast Hlen)
    as (ret & self' & h' & stored & Hrun & _ & _ & _ & Hstored & Hrows).
  by exists ret, self', h', stored.
Qed.

(** X3.  A frame that has rows, but not as many as the state, makes
    [_merge] raise [IndexError], in the seeding branch always and in the
    other branch as soon as one landmark passes the gate; the array that
    [_last] names is then what it was.  (A frame of no row at all is not
    refused.) *)
Theorem merge_wrong_length_raises (self : TrackerController S) (h : heap)
    (last cur : ndarray) :
  h !! _last self = Some last ->
  cur <> [] ->
  length cur <> length last ->
  isnan_all last = true \/
    any (col3_ge cur (f32.of_float (vis_thresh self))) = true ->
  exists h',
    _merge self cur h =
      (Raise (IndexError "boolean index did not match indexed array"), h') /\
    h' !! _last self = Some last.
Proof.
  intros Hlast Hcur Hlen Hcase.
  assert (Hneq : Nat.eqb (length (col3_ge cur (f32.of_float (vis_thresh self)))) 0
                 || Nat.eqb (length (col3_ge cur (f32.of_float (vis_thresh self))))
                      (length last) = false).
  { rewrite col3_ge_length. apply orb_false_intro; apply Nat.eqb_neq; [|done].
    by destruct cur. }
  unfold _merge, mbind, M_bind, bind, load. rewrite Hlast.
  destruct (isnan_all last) eqn:Hnan.
  - unfold lift. rewrite getitem_mask_ok by apply col3_ge_length.
    unfold setitem_mask. rewrite Hneq. simpl. by exists h.
  - destruct Hcase as [|Hany]; [done|]. rewrite Hany.
    unfold alloc, lift, getitem_mask. rewrite Hneq. simpl.
    eexists. split; [reflexivity|].
    rewrite lookup_insert_ne; [done|].
    intros Heq. apply (is_fresh (dom h)). rewrite Heq.
    apply elem_of_dom. eauto.
Qed.

(** X25.  A frame of no row is accepted whatever the number of rows of the
    state: the boolean index it gives has length 0 and selects nothing.
    [_merge] returns normally, the array it returns is the one [_last] names
    afterwards, and its rows are those of the state before the call. *)
Theorem merge_empty_frame_returns (self : TrackerController S) (h : heap)
    (last : ndarray) :
  h !! _last self = Some last ->
  exists ret self' h',
    _merge self [] h = (Ok (ret, self'), h') /\
    ret = _last self' /\
    h' !! ret = Some last /\
    vis_thresh self' = vis_thresh self /\
    smoother self' = smoother self.
Proof.
  intros Hlast.
  unfold _merge, mbind, M_bind, bind, load. rewrite Hlast.
  destruct (isnan_all last) eqn:Hnan.
  - exists (_last self), self, (<[_last self := last]> h).
    split; [reflexivity|]. split; [done|]. split; [|done].
    apply lookup_insert_eq.
  - eexists _, _, _. split; [reflexivity|]. split; [done|]. split; [|done].
    simpl. apply lookup_insert_eq.
Qed.

(** X4.  When the state is not all-unknown, [_merge] writes into no array
    that exists: it returns a new array object, and every object of the heap
    is after the call what it was before. *)
Theorem merge_blend_leaves_heap `{!Elementwise S} (self : TrackerController S)
    (h : heap) (last cur : ndarray) :
  h !! _last self = Some last ->
  isnan_all last = false ->
  length cur = length last ->
  exists ret self' h',
    _merge self cur h = (Ok (ret, self'), h') /\
    h !! ret = None /\
    forall l a, h !! l = Some a -> h' !! l = Some a.
Proof.
  intros Hlast Hnan Hlen.
  rewrite (_merge_blend self h last cur Hlast Hnan Hlen).
  eexists _, _, _. split; [reflexivity|].
  assert (Hfresh : h !! fresh (dom h) = None).
  { apply not_elem_of_dom, is_fresh. }
  split; [done|]. intros l a Hl.
  rewrite lookup_insert_ne; [done|]. intros Heq. congruence.
Qed.

(** X6.  A frame of the state's length in which no landmark passes the gate
    changes nothing in the state: whatever the strategy and the branch, the
    array that [_last] names after the call has the rows it had. *)
Theorem merge_without_accepted_landmark (self : TrackerController S) (h : heap)
    (last cur : ndarray) :
  h !! _last self = Some last ->
  length cur = length last ->
  any (col3_ge cur (f32.of_float (vis_thresh self))) = false ->
  exists ret self' h',
    _merge self cur h = (Ok (ret, self'), h') /\
    h' !! _last self' = Some last.
Proof.
  intros Hlast Hlen Hany. destruct (isnan_all last) eqn:Hnan.
  - rewrite (_merge_seed self h last cur Hlast Hnan Hlen).
    eexists _, _, _. split; [reflexivity|].
    rewrite place_any_false by done. apply lookup_insert_eq.
  - unfold _merge, mbind, M_bind, bind, load. rewrite Hlast, Hnan, Hany.
    unfold alloc. eexists _, _, _. split; [reflexivity|]. apply lookup_insert_eq.
Qed.

End more_merge_facts.

Section pass_through_facts.
Import np np_facts.

(** The array [_merge] leaves with the pass-through strategy, row by row. *)
Lemma merge_pass_through_rows (self : TrackerController NoSmoothing) (h : heap)
    (last cur : ndarray) :
  h !! _last self = Some last ->
  length cur = length last ->
  exists ret self' h' stored,
    _merge self cur h = (Ok (ret, self'), h') /\
    h' !! _last self' = Some stored /\
    length stored = length last /\
    forall k r c, last !! k = Some r -> cur !! k = Some c ->
      stored !! k =
        Some (if f32.ge (c3 c) (f32.of_float (vis_thresh self)) then c else r).
Proof.
  intros Hlast Hlen.
  set (mask := col3_ge cur (f32.of_float (vis_thresh self))).
  assert (Hmask : length mask = length last).
  { unfold mask. by rewrite col3_ge_length. }
  destruct (isnan_all last) eqn:Hnan.
  - rewrite (_merge_seed self h last cur Hlast Hnan Hlen).
    eexists _, _, _, _. split; [reflexivity|].
    split; [apply lookup_insert_eq|]. split; [apply place_length|].
    intros k r c Hr Hc.
    rewrite (place_compress_lookup _ _ _ k (f32.ge (c3 c) (f32.of_float (vis_thresh self))));
      try done.
    + rewrite Hr, Hc. by destruct (f32.ge _ _).
    + by apply col3_ge_lookup.
  - rewrite (_merge_blend self h last cur Hlast Hnan Hlen).
    eexists _, _, _, _. split; [reflexivity|]. simpl.
    split; [apply lookup_insert_eq|]. split; [apply place_length|].
    intros k r c Hr Hc.
    rewrite (place_compress_lookup _ _ _ k (f32.ge (c3 c) (f32.of_float (vis_thresh self))));
      try done.
    + rewrite lookup_zip_with, Hr, Hc. simpl.
      destruct (f32.ge _ _); [|done]. unfold row_map2. by rewrite row_eta.
    + rewrite length_zip_with. lia.
    + by apply col3_ge_lookup.
Qed.

(** X1.  With the pass-through strategy, whatever the state, a merge of a
    frame of the state's length leaves at each index the incoming row when
    its visibility is at or above the threshold, and the previous row when
    it is not: the rows that change are among the accepted ones. *)
Theorem merge_pass_through_selects (self : TrackerController NoSmoothing)
    (h : heap) (last cur : ndarray) :
  h !! _last self = Some last ->
  length cur = length last ->
  exists ret self' h' stored,
    _merge self cur h = (Ok (ret, self'), h') /\
    h' !! _last self' = Some stored /\
    length stored = length last /\
    forall k r c, last !! k = Some r -> cur !! k = Some c ->
      stored !! k =
        Some (if f32.ge (c3 c) (f32.of_float (vis_thresh self)) then c else r).
Proof. apply merge_pass_through_rows. Qed.

(** X5.  With the pass-through strategy a state that is not all-unknown
    stays so: after a merge some row still has an entry that is not NaN. *)
Theorem merge_pass_through_stays_known (self : TrackerController NoSmoothing)
    (h : heap) (last cur : ndarray) :
  h !! _last self = Some last ->
  length cur = length last ->
  isnan_all last = false ->
  exists ret self' h' stored,
    _merge self cur h = (Ok (ret, self'), h') /\
    h' !! _last self' = Some stored /\
    isnan_all stored = false.
Proof.
  intros Hlast Hlen Hnan.
  destruct (merge_pass_through_rows self h last cur Hlast Hlen)
    as (ret & self' & h' & stored & Hrun & Hstored & _ & Hrows).
  exists ret, self', h', stored. split; [done|]. split; [done|].
  destruct (isnan_all_false_elim last Hnan) as (k & r & Hk & Hr).
  destruct (lookup_lt_is_Some_2 cur k) as [c Hc].
  { rewrite Hlen. by eapply lookup_lt_Some. }
  pose proof (Hrows k r c Hk Hc) as Hrow.
  destruct (f32.ge (c3 c) (f32.of_float (vis_thresh self))) eqn:Hge.
  - apply (isnan_all_false_intro stored k c Hrow).
    unfold row_all. rewrite (ge_not_nan _ _ Hge). by rewrite andb_false_r.
  - by apply (isnan_all_false_intro stored k r Hrow).
Qed.

End pass_through_facts.

(** ** More on the merge of server.py *)

Section more_merge_frame_facts.
Import np np_facts.

(** X7.  In [merge_frame], a landmark that is unknown in a state that is
    not all-unknown, and whose incoming visibility passes the gate, is
    stored as the incoming row itself: [ema_update] blends nothing against
    NaN. *)
Theorem merge_frame_first_acceptance_adopts (last_good : loc) (h : heap)
    (lg cur : ndarray) (k : nat) (c : row) :
  h !! last_good = Some lg ->
  length cur = length lg ->
  isnan_all lg = false ->
  lg !! k = Some unknown ->
  cur !! k = Some c ->
  f32.ge (c3 c) (f32.of_float server.VIS_THRESH) = true ->
  exists ret mask last_good' h' stored,
    server.merge_frame last_good cur h = (Ok (ret, mask, last_good'), h') /\
    h' !! last_good' = Some stored /\
    stored !! k = Some c.
Proof.
  intros Hlg Hlen Hnan Hk Hc Hge.
  rewrite (merge_frame_eq last_good h lg cur Hlg Hlen), Hnan.
  eexists _, _, _, _, _. split; [reflexivity|]. split; [apply lookup_insert_eq|].
  rewrite place_compress_lookup_true.
  - rewrite lookup_zip_with, Hk, Hc. by destruct c.
  - by rewrite col3_ge_length.
  - rewrite length_zip_with. lia.
  - by rewrite (col3_ge_lookup _ _ _ _ Hc), Hge.
Qed.

(** The address of a new object, after an in-place write at [l]. *)
Lemma fresh_after_insert (h : heap) (l : loc) (a : ndarray) :
  fresh (dom (<[l := a]> h)) <> l /\ h !! fresh (dom (<[l := a]> h)) = None.
Proof.
  rewrite dom_insert_L.
  pose proof (is_fresh ({[l]} ∪ dom h)) as Hfresh.
  apply not_elem_of_union in Hfresh as [Hl Hdom].
  apply not_elem_of_singleton in Hl. apply not_elem_of_dom in Hdom. done.
Qed.

(** X8.  What [merge_frame] touches.  It returns a new array object that
    holds the new state; of the objects that exist it writes to none but
    the one [last_good] names, and to that one in the seeding branch only:
    when the state is not all-unknown the old [last_good] array is left as
    it was. *)
Theorem merge_frame_footprint (last_good : loc) (h : heap) (lg cur : ndarray) :
  h !! last_good = Some lg ->
  length cur = length lg ->
  exists ret mask last_good' h',
    server.merge_frame last_good cur h = (Ok (ret, mask, last_good'), h') /\
    h !! ret = None /\
    h' !! ret = h' !! last_good' /\
    (forall l a, l <> last_good -> h !! l = Some a -> h' !! l = Some a) /\
    (isnan_all lg = false -> h' !! last_good = Some lg).
Proof.
  intros Hlg Hlen.
  rewrite (merge_frame_eq last_good h lg cur Hlg Hlen).
  set (mask := col3_ge cur (f32.of_float server.VIS_THRESH)).
  assert (Hfresh : h !! fresh (dom h) = None).
  { apply not_elem_of_dom, is_fresh. }
  destruct (isnan_all lg).
  - destruct (fresh_after_insert h last_good (place mask lg (compress mask cur)))
      as [Hne Hnone].
    eexists _, _, _, _. split; [reflexivity|]. simpl. split; [|split; [|split]].
    + exact Hnone.
    + by rewrite lookup_insert_eq, lookup_insert_ne, lookup_insert_eq.
    + intros l a Hl Ha.
      rewrite !lookup_insert_ne; [done|done|]. intros Heq. congruence.
    + done.
  - eexists _, _, _, _. split; [reflexivity|]. simpl. split; [|split; [|split]].
    + exact Hfresh.
    + done.
    + intros l a _ Ha. rewrite lookup_insert_ne; [done|]. intros Heq. congruence.
    + intros _. rewrite lookup_insert_ne; [done|]. intros Heq. congruence.
Qed.

(** Where the previous entry is finite, the two EMA updates are one. *)
Lemma ema_updates_agree (alpha : pyfloat.t) (p n : f32.t) :
  pyfloat.is_finite p = true ->
  update1 (EmaSmoother_new alpha) p n = server.ema_update1 alpha p n.
Proof. by destruct p as [s|s| |s m e]. Qed.

Lemma place_compress_zip_ext (f g : row -> row -> row) (mask : list bool)
    (a b : ndarray) :
  length mask = length a -> length b = length a ->
  (forall k r c, mask !! k = Some true -> a !! k = Some r -> b !! k = Some c ->
     f r c = g r c) ->
  place mask a (compress mask (zip_with f a b)) =
  place mask a (compress mask (zip_with g a b)).
Proof.
  intros Hmask Hb Hfg. apply list_eq. intros k.
  destruct (mask !! k) as [m|] eqn:Hm.
  - rewrite !(place_compress_lookup _ _ _ k m) by (rewrite ?length_zip_with; lia || done).
    destruct m; [|done]. rewrite !lookup_zip_with.
    destruct (a !! k) as [r|] eqn:Hr; [|done].
    destruct (b !! k) as [c|] eqn:Hc; [|done]. simpl.
    by rewrite (Hfg k r c).
  - apply lookup_ge_None in Hm.
    rewrite !lookup_ge_None_2; [done| |]; rewrite place_length; lia.
Qed.

(** X9.  The controller with the EMA strategy and [merge_frame] of
    server.py, at the same threshold and alpha, leave the same state
    whenever every accepted row of the previous state has four finite
    entries. *)
Theorem merge_agrees_with_merge_frame (l : loc) (h : heap) (last cur : ndarray) :
  let self := TrackerController_new server.VIS_THRESH
                (EmaSmoother_new server.EMA_ALPHA) l in
  h !! l = Some last ->
  length cur = length last ->
  (forall k r c, last !! k = Some r -> cur !! k = Some c ->
     f32.ge (c3 c) (f32.of_float server.VIS_THRESH) = true ->
     row_all pyfloat.is_finite r = true) ->
  exists ret self' h' ret2 mask last_good' h2 stored,
    _merge self cur h = (Ok (ret, self'), h') /\
    server.merge_frame l cur h = (Ok (ret2, mask, last_good'), h2) /\
    h' !! _last self' = Some stored /\
    h2 !! last_good' = Some stored.
Proof.
  intros self Hlast Hlen Hfin.
  rewrite (merge_frame_eq l h last cur Hlast Hlen).
  destruct (isnan_all last) eqn:Hnan.
  - rewrite (_merge_seed self h last cur Hlast Hnan Hlen).
    eexists _, _, _, _, _, _, _, _. split; [reflexivity|]. split; [reflexivity|].
    cbn [_last]. split; [apply lookup_insert_eq|].
    rewrite lookup_insert_ne; [apply lookup_insert_eq|].
    apply fresh_after_insert.
  - rewrite (_merge_blend self h last cur Hlast Hnan Hlen).
    eexists _, _, _, _, _, _, _, _. split; [reflexivity|]. split; [reflexivity|].
    cbn [_last]. split; [apply lookup_insert_eq|].
    rewrite lookup_insert_eq. f_equal.
    apply place_compress_zip_ext.
    + by rewrite col3_ge_length.
    + done.
    + intros k r c Hm Hr Hc.
      rewrite (col3_ge_lookup _ _ _ _ Hc) in Hm. injection Hm as Hge.
      pose proof (Hfin k r c Hr Hc Hge) as Hrow.
      unfold row_all in Hrow.
      apply andb_prop in Hrow as [Hrow H3].
      apply andb_prop in Hrow as [Hrow H2].
      apply andb_prop in Hrow as [H0 H1].
      unfold row_map2. symmetry.
      f_equal; apply ema_updates_agree; assumption.
Qed.

End more_merge_frame_facts.

(** ** More on the observable model *)

Section more_PoseModel_facts.
Context {Obs A W : Type} `{EqDecision Obs} `{!IObserver Obs A W}.




(** X11.  [set] installs the array it is given and then notifies: it
    returns normally, [get] gives that array back, and every observer
    attached has run its [update] on it, the new array and not the one the
    model held before, in attachment order and each on the state left by
    the observers before it; the observers' state and the output are what
    these updates have made of them. *)
Theorem set_notifies_with_new_array (a : A) (m : PoseModel Obs A W) :
  exists outcomes observers' views' m',
    deliver a (_observers m) (_observers m, views m)
      = (outcomes, (observers', views')) /\
    m' = PoseModel_new a observers' views'
           (stdout m ++ omap report outcomes)
           (calls m ++ zip_with (fun obs r => (obs, a, r)) (_observers m) outcomes) /\
    set a m = (Ok tt, m') /\
    get m' = (Ok a, m') /\
    length outcomes = length (_observers m).
Proof.
  destruct (deliver a (_observers m) (_observers m, views m))
    as [outcomes [observers' views']] eqn:Hd.
  eexists outcomes, observers', views', _. split; [done|]. split; [reflexivity|].
  split.
  { etransitivity;
      [|exact (notify_loop_delivers (_observers m)
                 (PoseModel_new a (_observers m) (views m) (stdout m) (calls m))
                 outcomes observers' views' Hd)].
    reflexivity. }
  split; [done|].
  pose proof (deliver_length a (_observers m) (_observers m, views m)) as Hlen.
  by rewrite Hd in Hlen.
Qed.

End more_PoseModel_facts.

(** ** More on the payload adapter *)

(** server.py: [json.dumps] with the separators it has by default. *)
Fixpoint dumps_sep `{PyFloat} (item_sep key_sep : string) (o : json) : string :=
  match o with
  | JStr s => encode_basestring s
  | JInt n => pretty n
  | JFloat v => floatstr v
  | JList items =>
      "[" +:+
      (fix go (items : list json) : string :=
         match items with
         | [] => EmptyString
         | x :: items' =>
             match items' with
             | [] => dumps_sep item_sep key_sep x
             | _ :: _ => dumps_sep item_sep key_sep x +:+ item_sep +:+ go items'
             end
         end) items +:+ "]"
  | JDict items =>
      "{" +:+
      (fix go (items : list (string * json)) : string :=
         match items with
         | [] => EmptyString
         | kv :: items' =>
             match items' with
             | [] => encode_basestring (fst kv) +:+ key_sep
                       +:+ dumps_sep item_sep key_sep (snd kv)
             | _ :: _ => encode_basestring (fst kv) +:+ key_sep
                           +:+ dumps_sep item_sep key_sep (snd kv)
                           +:+ item_sep +:+ go items'
             end
         end) items +:+ "}"
  end.

(** server.py: [to_unity_payload_text(merged33x4)]; [now] is the text of
    [datetime.utcnow().isoformat()] at the call. *)
Definition to_unity_payload_text `{PyFloat} (now : string) (merged33x4 : np.ndarray)
  : res string :=
  let safe := np.nan_to_num merged33x4 in
  pose ← map_res (fun i =>
                    r ← getitem safe i;
                    mret (JDict [("id", JInt (Z.of_nat i));
                                 ("x", JFloat (f32.to_float (np.c0 r)));
                                 ("y", JFloat (f32.to_float (np.c1 r)));
                                 ("z", JFloat (f32.to_float (np.c2 r)))]))
                 (seq 0 33);
  mret (dumps_sep ", " ": " (JDict [("ts", JStr (now +:+ "Z")); ("pose", JList pose)])).

Section more_adapter_facts.
Context `{PyFloat}.
Import np.

Lemma map_res_raise {X Y : Type} (f : X -> res Y) (xs ys : list X) (x : X) (e : exn) :
  (forall x', x' ∈ xs -> exists y, f x' = Ok y) ->
  f x = Raise e ->
  map_res f (xs ++ x :: ys) = Raise e.
Proof.
  intros Hxs Hx. induction xs as [|x' xs IH]; simpl.
  - by rewrite Hx.
  - destruct (Hxs x') as [y ->]; [apply list_elem_of_here|]. simpl.
    rewrite IH; [done|]. intros z Hz. apply Hxs. by apply list_elem_of_further.
Qed.

(** The rows [to_text] reads. *)
Definition safe_of (self : UnityPoseAdapter) (arr : ndarray) : ndarray :=
  if nan_to_zero self then nan_to_num arr else arr.

Lemma safe_of_length (self : UnityPoseAdapter) (arr : ndarray) :
  length (safe_of self arr) = length arr.
Proof. unfold safe_of, nan_to_num. destruct (nan_to_zero self); by rewrite ?length_map. Qed.

Lemma pose_of_rows (self : UnityPoseAdapter) (arr : ndarray) :
  33 <= length arr ->
  pose_of self arr =
    Ok (map (fun i => record_of self (default unknown (safe_of self arr !! i)) i)
            (seq 0 33)).
Proof.
  intros Hlen. unfold pose_of. fold (safe_of self arr).
  apply map_res_ok. intros i Hi.
  apply elem_of_seq in Hi as [_ Hi].
  destruct (lookup_lt_is_Some_2 (safe_of self arr) i) as [r Hr].
  { rewrite safe_of_length. lia. }
  unfold getitem. by rewrite Hr.
Qed.

(** X12.  On a state of fewer than 33 rows [to_text] raises [IndexError],
    whatever the options: nothing is padded. *)
Theorem to_text_short_array_raises (self : UnityPoseAdapter) (now : string)
    (arr : ndarray) :
  length arr < 33 ->
  to_text self now arr = Raise (IndexError "index is out of bounds for axis 0").
Proof.
  intros Hlen.
  unfold to_text, UnityPoseAdapter_IPayloadAdapter, payload_of, pose_of.
  fold (safe_of self arr).
  replace (seq 0 33) with
    (seq 0 (length arr) ++ length arr :: seq (S (length arr)) (32 - length arr)).
  2:{ change (length arr :: seq (S (length arr)) (32 - length arr))
        with (seq (length arr) (S (32 - length arr))).
      rewrite <- seq_app. f_equal. lia. }
  rewrite (map_res_raise _ _ _ _ (IndexError "index is out of bounds for axis 0")); [done| |].
  - intros i Hi. apply elem_of_seq in Hi as [_ Hi].
    destruct (lookup_lt_is_Some_2 (safe_of self arr) i) as [r Hr].
    { rewrite safe_of_length. lia. }
    unfold getitem. rewrite Hr. eauto.
  - unfold getitem. rewrite lookup_ge_None_2; [done|]. by rewrite safe_of_length.
Qed.

(** X13.  [to_text] reads the x, y, z of the first 33 rows and nothing else:
    two states of at least 33 rows that agree there give the same text,
    whatever their visibilities and their rows beyond the 33rd. *)
Theorem to_text_reads_xyz_of_33_rows (self : UnityPoseAdapter) (now : string)
    (arr arr' : ndarray) :
  33 <= length arr ->
  33 <= length arr' ->
  (forall i r r', i < 33 -> arr !! i = Some r -> arr' !! i = Some r' ->
     c0 r = c0 r' /\ c1 r = c1 r' /\ c2 r = c2 r') ->
  to_text self now arr = to_text self now arr'.
Proof.
  intros Hlen Hlen' Hxyz.
  unfold to_text, UnityPoseAdapter_IPayloadAdapter, payload_of.
  rewrite !pose_of_rows by done.
  assert (Hpose :
    map (fun i => record_of self (default unknown (safe_of self arr !! i)) i) (seq 0 33) =
    map (fun i => record_of self (default unknown (safe_of self arr' !! i)) i) (seq 0 33)).
  { apply map_ext_in. intros i Hi. apply in_seq in Hi as [_ Hi]. simpl in Hi.
    destruct (lookup_lt_is_Some_2 arr i) as [r Hr]; [lia|].
    destruct (lookup_lt_is_Some_2 arr' i) as [r' Hr']; [lia|].
    destruct (Hxyz i r r' Hi Hr Hr') as (H0 & H1 & H2).
    unfold safe_of, nan_to_num, record_of.
    destruct (nan_to_zero self).
    - rewrite !list_lookup_fmap, Hr, Hr'. simpl. by rewrite H0, H1, H2.
    - rewrite Hr, Hr'. simpl. by rewrite H0, H1, H2. }
  by rewrite Hpose.
Qed.

Lemma round_nan (ndigits : Z) : round S754_nan ndigits = S754_nan.
Proof. reflexivity. Qed.

(** X14.  With NaN-to-zero off, an unknown field stays NaN through
    [_num], whatever the rounding, and the encoder writes it as the literal
    [NaN]. *)
Theorem to_text_keeps_nan_when_not_zeroed (ndigits : option Z) (now : string)
    (arr : ndarray) (i : nat) (r : row) :
  33 <= length arr ->
  i < 33 ->
  arr !! i = Some r ->
  exists pose x y z,
    pose_of (UnityPoseAdapter_new false ndigits) arr = Ok pose /\
    to_text (UnityPoseAdapter_new false ndigits) now arr =
      Ok (dumps (JDict [("ts", JStr (now +:+ "Z")); ("pose", JList pose)])) /\
    pose !! i = Some (JDict [("id", JInt (Z.of_nat i)); ("x", JFloat x);
                             ("y", JFloat y); ("z", JFloat z)]) /\
    (f32.isnan (c0 r) = true -> x = S754_nan /\ dumps (JFloat x) = "NaN") /\
    (f32.isnan (c1 r) = true -> y = S754_nan /\ dumps (JFloat y) = "NaN") /\
    (f32.isnan (c2 r) = true -> z = S754_nan /\ dumps (JFloat z) = "NaN").
Proof.
  intros Hlen Hi Hr.
  eexists _, _, _, _. split; [by apply pose_of_rows|].
  split.
  { unfold to_text, UnityPoseAdapter_IPayloadAdapter, payload_of.
    by rewrite pose_of_rows. }
  split.
  { rewrite list_lookup_fmap, lookup_seq_lt by done. simpl.
    unfold safe_of. simpl. rewrite Hr. reflexivity. }
  destruct r as [x y z v]. simpl.
  assert (Hnum : _num (UnityPoseAdapter_new false ndigits) f32.nan = S754_nan).
  { unfold _num. simpl. by destruct ndigits. }
  split; [|split]; intros ->%nan_is_nan; by rewrite Hnum.
Qed.

(** The floats and all the rest are written alike by the two encoders; the
    separators are the only difference. *)
Lemma dumps_is_compact (o : json) : dumps o = dumps_sep "," ":" o.
Proof.
  revert o. fix IH 1. intros o. destruct o as [s|n|v|items|items]; simpl.
  - exact eq_refl.
  - exact eq_refl.
  - exact eq_refl.
  - f_equal. f_equal. induction items as [|x items IHitems]; [exact eq_refl|].
    destruct items as [|x' items]; [apply IH|].
    rewrite IH. f_equal. f_equal. apply IHitems.
  - f_equal. f_equal. induction items as [|[k x] items IHitems]; [exact eq_refl|].
    destruct items as [|kx' items]; simpl; [rewrite IH; exact eq_refl|].
    rewrite IH. do 4 f_equal. apply IHitems.
Qed.

(** X15.  [to_unity_payload_text] of server.py and the adapter with
    NaN-to-zero on and no rounding serialise one and the same payload value
    on every state, and raise alike; the adapter writes it with the
    separators [","] and [":"], server.py with [", "] and [": "]. *)
Theorem to_unity_payload_text_same_payload (now : string) (arr : ndarray) :
  to_unity_payload_text now arr =
    (payload ← payload_of (UnityPoseAdapter_new true None) now arr;
     mret (dumps_sep ", " ": " payload)) /\
  to_text (UnityPoseAdapter_new true None) now arr =
    (payload ← payload_of (UnityPoseAdapter_new true None) now arr;
     mret (dumps_sep "," ":" payload)).
Proof.
  split.
  - assert (Hpose : to_unity_payload_text now arr =
      (pose ← pose_of (UnityPoseAdapter_new true None) arr;
       mret (dumps_sep ", " ": "
               (JDict [("ts", JStr (now +:+ "Z")); ("pose", JList pose)]))))
      by reflexivity.
    rewrite Hpose. unfold payload_of.
    by destruct (pose_of (UnityPoseAdapter_new true None) arr).
  - unfold to_text, UnityPoseAdapter_IPayloadAdapter.
    destruct (payload_of _ _ _); simpl; [|done]. by rewrite dumps_is_compact.
Qed.

End more_adapter_facts.

(** ** More on the broadcast view *)

Section more_view_facts.
Context {T : Type} `{IPayloadAdapter T}.

(** The sends of one tick: one per client of the set when the slot holds a
    non-empty text, none otherwise. *)
Definition tick_batch (v : WebSocketView T) (n : network)
  : list (client * string * bool) :=
  match truthy (_latest_text v) with
  | Some text => map (sent (closed n) text) (elements (_clients v))
  | None => []
  end.

Lemma tick_outcome (v : WebSocketView T) (n : network) :
  _broadcast_tick (v, n) =
    (Ok tt, (v, Network (closed n) (sends n ++ tick_batch v n))).
Proof.
  unfold tick_batch. destruct (truthy (_latest_text v)) as [text|] eqn:Htext.
  - destruct (decide (_clients v = ∅)) as [Hcs|Hcs].
    + rewrite tick_idle by (by right).
      rewrite Hcs, elements_empty. simpl. rewrite app_nil_r. by destruct n.
    + by apply tick_sends.
  - rewrite tick_idle by (by left). rewrite app_nil_r. by destruct n.
Qed.

(** X16.  A tick when no payload was ever produced, or when the payload is
    the empty text, or when no client is connected, sends nothing and
    changes nothing. *)
Theorem tick_without_payload_or_client (v : WebSocketView T) (n : network) :
  _latest_text v = None \/ _latest_text v = Some EmptyString \/ _clients v = ∅ ->
  _broadcast_tick (v, n) = (Ok tt, (v, n)).
Proof.
  intros [Hnone|[Hempty|Hcs]]; apply tick_idle.
  - left. by rewrite Hnone.
  - left. by rewrite Hempty.
  - by right.
Qed.

(** X17.  The tick does not consume the slot: [k] ticks in a row, with no
    notification between them, send the same batch [k] times, and leave the
    view as it was. *)
Theorem ticks_resend_latest (k : nat) (v : WebSocketView T) (n : network) :
  run (replicate k Tick) (v, n) =
    (Ok tt, (v, Network (closed n)
                  (sends n ++ concat (replicate k (tick_batch v n))))).
Proof.
  revert n. induction k as [|k IH]; intros n.
  - simpl. rewrite app_nil_r. by destruct n.
  - unfold run in *. simpl. unfold bind at 1. unfold try_except at 1.
    cbn [step]. rewrite tick_outcome.
    rewrite (IH (Network (closed n) (sends n ++ tick_batch v n))). simpl.
    by rewrite <- app_assoc.
Qed.

(** X18.  Once the handler of a connection has ended, the next tick sends
    nothing to that client: the sends of the tick go to clients of the set
    other than it. *)
Theorem disconnected_client_gets_nothing (c : client) (v : WebSocketView T)
    (n : network) :
  exists v' batch,
    run [Disconnected c; Tick] (v, n) =
      (Ok tt, (v', Network (closed n) (sends n ++ batch))) /\
    _clients v' = _clients v ∖ {[c]} /\
    forall c' text ok, (c', text, ok) ∈ batch -> c' <> c /\ c' ∈ _clients v.
Proof.
  set (v' := WebSocketView_new (adapter v) (_latest_text v) (_clients v ∖ {[c]})).
  exists v', (tick_batch v' n). split.
  { unfold run. simpl. unfold bind, try_except. cbn [step].
    unfold _handler_exit, modify. fold v'. by rewrite tick_outcome. }
  split; [done|].
  intros c' text ok. unfold tick_batch.
  destruct (truthy (_latest_text v')); [|by intros ?%elem_of_nil].
  intros (c0 & Heq & Hc0)%list_elem_of_fmap. unfold sent in Heq. simplify_eq.
  apply elem_of_elements in Hc0. simpl in Hc0.
  apply elem_of_difference in Hc0 as [Hin Hout].
  split; [|done]. intros ->. apply Hout. by apply elem_of_singleton.
Qed.

(** X19.  The loop of server.py and the loop of the view do the same thing
    on the same client set and payload: one turn of each leaves the same
    record of sends. *)
Theorem server_tick_matches_view_tick (g : server.globals) (v : WebSocketView T)
    (n : network) :
  server.clients g = _clients v ->
  server.latest_payload_text g = _latest_text v ->
  exists n',
    server.broadcast_tick (g, n) = (Ok tt, (g, n')) /\
    _broadcast_tick (v, n) = (Ok tt, (v, n')).
Proof.
  intros Hcs Htext. exists (Network (closed n) (sends n ++ tick_batch v n)).
  split; [|apply tick_outcome].
  unfold server.broadcast_tick, mbind, M_bind, bind, gets, tick_batch. simpl.
  rewrite Hcs, Htext.
  destruct (decide (_clients v <> ∅)) as [Hne|He].
  - destruct (truthy (_latest_text v)) as [text|].
    + destruct (gather_sends text (elements (_clients v)) g n) as (results & -> & _).
      done.
    + rewrite app_nil_r. by destruct n.
  - assert (Hempty : _clients v = ∅) by (by destruct (decide (_clients v = ∅))).
    rewrite Hempty, elements_empty.
    destruct (truthy (_latest_text v)); simpl; rewrite app_nil_r; by destruct n.
Qed.

End more_view_facts.

(** ** mvc/view.py: the printing views *)

(** [s[:n]] on a string; a negative [n] counts from the end. *)
Definition slice_to (s : string) (n : Z) : string :=
  if (0 <=? n)%Z then String.substring 0 (Z.to_nat n) s
  else String.substring 0 (Z.to_nat (Z.of_nat (String.length s) + n)) s.

Record JsonPrintView (T : Type) := JsonPrintView_new {
  json_adapter : T;
  preview_chars : Z;
}.
Arguments JsonPrintView_new {T}.
Arguments json_adapter {T}.
Arguments preview_chars {T}.

(** [JsonPrintView.update(arr33x4)], called at clock reading [now]; the
    state is the standard output. *)
Definition JsonPrintView_update {T} `{IPayloadAdapter T} (self : JsonPrintView T)
    (now : string) (arr33x4 : np.ndarray) : M (list string) unit :=
  text ← lift (to_text (json_adapter self) now arr33x4);
  let preview :=
    slice_to text (preview_chars self) +:+
    (if (preview_chars self <? Z.of_nat (String.length text))%Z then "..."
     else EmptyString) in
  modify (fun out => out ++ ["[JSON] " +:+ preview]).

(** [ConsoleView.update(arr33x4)]; [array_str] is NumPy's text of the
    3 by 3 array [arr33x4[:3, :3]]. *)
Definition ConsoleView_update (array_str : list (f32.t * f32.t * f32.t) -> string)
    (arr33x4 : option np.ndarray) : M (list string) unit :=
  match arr33x4 with
  | None => modify (fun out => out ++ ["[View] No pose yet."])
  | Some a =>
      if np.isnan_all a then modify (fun out => out ++ ["[View] No pose yet."])
      else
        let pts := map (fun r => (np.c0 r, np.c1 r, np.c2 r)) (take 3 a) in
        modify (fun out => out ++ ["[View] Pose updated | first 3 pts: " +:+ array_str pts])
  end.

(** ** app.py: the model with its two views *)

Inductive app_observer := console_view | ws_view.

#[global] Instance app_observer_eq_dec : EqDecision app_observer.
Proof. solve_decision. Defined.

(** What the views of app.py own: the WebSocket view and the network, the
    clock, and the lines the views print. *)
Record app_views (T : Type) := AppViews {
  app_ws : WebSocketView T;
  app_net : network;
  app_now : string;
  app_console : list string;
}.
Arguments AppViews {T}.
Arguments app_ws {T}.
Arguments app_net {T}.
Arguments app_now {T}.
Arguments app_console {T}.

Section app.
Context {T : Type} `{IPayloadAdapter T}.
Context (array_str : list (f32.t * f32.t * f32.t) -> string).

#[global] Instance app_IObserver : IObserver app_observer np.ndarray (app_views T) :=
  fun obs arr '(observers, w) =>
    match obs with
    | console_view =>
        let '(r, console') := ConsoleView_update array_str (Some arr) (app_console w) in
        (r, (observers, AppViews (app_ws w) (app_net w) (app_now w) console'))
    | ws_view =>
        let '(r, (ws', net')) := ws_update (app_now w) arr (app_ws w, app_net w) in
        (r, (observers, AppViews ws' net' (app_now w) (app_console w)))
    end.

(** [main]: a new model, the console view and the WebSocket view attached
    in this order. *)
Definition app_attach : M (PoseModel app_observer np.ndarray (app_views T)) unit :=
  _ ← attach console_view; attach ws_view.

End app.

(** *** The preview of [JsonPrintView] *)

Lemma substring_0_length (m : nat) (s : string) :
  String.length (String.substring 0 m s) = Nat.min m (String.length s).
Proof.
  revert s. induction m as [|m IH]; intros [|a s]; simpl; try done.
  by rewrite IH.
Qed.

Lemma substring_0_all (m : nat) (s : string) :
  String.length s <= m -> String.substring 0 m s = s.
Proof.
  revert s. induction m as [|m IH]; intros [|a s] Hlen; simpl in *; try done; [lia|].
  rewrite IH; [done|lia].
Qed.

Lemma string_length_append (s1 s2 : string) :
  String.length (s1 +:+ s2) = String.length s1 + String.length s2.
Proof.
  induction s1 as [|a s1 IH]; [done|].
  change (S (String.length (s1 +:+ s2)) = S (String.length s1 + String.length s2)).
  by rewrite IH.
Qed.

Lemma string_append_empty (s : string) : s +:+ EmptyString = s.
Proof.
  induction s as [|a s IH]; [done|].
  change (String a (s +:+ EmptyString) = String a s). by rewrite IH.
Qed.

(** X20.  [JsonPrintView.update] with a preview length that is not
    negative prints one line, [[JSON] ] and a preview: the whole text when
    it is no longer than the preview length, and otherwise its first
    [preview_chars] characters followed by three dots. *)
Theorem json_preview_bounded {T} `{IPayloadAdapter T} (self : JsonPrintView T)
    (now : string) (arr : np.ndarray) (text : string) (out : list string) :
  (0 <= preview_chars self)%Z ->
  to_text (json_adapter self) now arr = Ok text ->
  exists preview,
    JsonPrintView_update self now arr out = (Ok tt, out ++ ["[JSON] " +:+ preview]) /\
    String.length preview <= Z.to_nat (preview_chars self) + 3 /\
    (String.length text <= Z.to_nat (preview_chars self) -> preview = text) /\
    (Z.to_nat (preview_chars self) < String.length text ->
       preview = String.substring 0 (Z.to_nat (preview_chars self)) text +:+ "..." /\
       String.length preview = Z.to_nat (preview_chars self) + 3).
Proof.
  intros Hpos Htext.
  unfold JsonPrintView_update, mbind, M_bind, bind, lift, modify. rewrite Htext.
  eexists. split; [reflexivity|].
  unfold slice_to. rewrite (proj2 (Z.leb_le 0 (preview_chars self)) Hpos).
  destruct (preview_chars self <? Z.of_nat (String.length text))%Z eqn:Hlt.
  - apply Z.ltb_lt in Hlt.
    rewrite string_length_append, substring_0_length. simpl.
    split; [lia|]. split; [lia|]. intros _. split; [done|]. lia.
  - apply Z.ltb_ge in Hlt.
    rewrite string_append_empty, substring_0_all by lia.
    split; [lia|]. split; [done|]. lia.
Qed.

(** *** A producer step in app.py *)

Section app_facts.
Context {T : Type} `{IPayloadAdapter T}.
Context (array_str : list (f32.t * f32.t * f32.t) -> string).

Lemma ConsoleView_update_prints (arr : option np.ndarray) (out : list string) :
  exists line, ConsoleView_update array_str arr out = (Ok tt, out ++ [line]).
Proof.
  unfold ConsoleView_update, modify. destruct arr as [a|]; [|by eexists].
  destruct (np.isnan_all a); by eexists.
Qed.

(** X21.  A producer step in app.py, where the adapter gives a text: with
    the console view and the WebSocket view attached, [set] returns, the
    model holds the new array, the slot of the WebSocket view holds the
    adapter's text for that array, the console view has printed one line,
    and the model reports no failure. *)
Theorem app_set_fills_slot (arr : np.ndarray) (text : string)
    (m : PoseModel app_observer np.ndarray (app_views T)) :
  _observers m = [console_view; ws_view] ->
  to_text (adapter (app_ws (views m))) (app_now (views m)) arr = Ok text ->
  exists line m',
    @set app_observer np.ndarray (app_views T) (app_IObserver array_str) arr m
      = (Ok tt, m') /\
    _arr m' = arr /\
    _observers m' = _observers m /\
    _latest_text (app_ws (views m')) = Some text /\
    _clients (app_ws (views m')) = _clients (app_ws (views m)) /\
    app_net (views m') = app_net (views m) /\
    app_console (views m') = app_console (views m) ++ [line] /\
    stdout m' = stdout m.
Proof.
  intros Hobs Htext.
  destruct (ConsoleView_update_prints (Some arr) (app_console (views m)))
    as (line & Hline).
  exists line. eexists. split.
  { unfold set, notify, mbind, M_bind, bind, modify, gets. simpl. rewrite Hobs.
    simpl. unfold bind, try_except, mbind, M_bind, bind, gets, call_update. simpl.
    unfold observer_update, app_IObserver. rewrite Hline. simpl.
    unfold ws_update, mbind, M_bind, bind, gets, lift, modify. simpl.
    rewrite Htext. simpl. reflexivity. }
  simpl. by rewrite Hobs.
Qed.

(** X22.  A producer step in app.py, where the adapter raises: [set] still
    returns, the WebSocket view and the network are as they were, so that
    the slot keeps the payload it had, and the model prints one line that
    reports the failure. *)
Theorem app_set_contains_adapter_failure (arr : np.ndarray) (e : exn)
    (m : PoseModel app_observer np.ndarray (app_views T)) :
  _observers m = [console_view; ws_view] ->
  to_text (adapter (app_ws (views m))) (app_now (views m)) arr = Raise e ->
  exists m',
    @set app_observer np.ndarray (app_views T) (app_IObserver array_str) arr m
      = (Ok tt, m') /\
    _arr m' = arr /\
    app_ws (views m') = app_ws (views m) /\
    app_net (views m') = app_net (views m) /\
    stdout m' = stdout m ++ ["[Model] Observer failed: " +:+ exn_str e].
Proof.
  intros Hobs Htext.
  destruct (ConsoleView_update_prints (Some arr) (app_console (views m)))
    as (line & Hline).
  eexists. split.
  { unfold set, notify, mbind, M_bind, bind, modify, gets. simpl. rewrite Hobs.
    simpl. unfold bind, try_except, mbind, M_bind, bind, gets, call_update. simpl.
    unfold observer_update, app_IObserver. rewrite Hline. simpl.
    unfold ws_update, mbind, M_bind, bind, gets, lift, modify. simpl.
    rewrite Htext. simpl. reflexivity. }
  simpl. by repeat split.
Qed.

End app_facts.

(** After [main] has attached its views, the observers are the console view
    and the WebSocket view, in this order. *)
Lemma app_attach_observers {T : Type} (m : PoseModel app_observer np.ndarray (app_views T)) :
  _observers m = [] ->
  exists m', app_attach m = (Ok tt, m') /\ _observers m' = [console_view; ws_view].
Proof.
  intros Hobs. unfold app_attach, attach, mbind, M_bind, bind, modify.
  eexists. split; [reflexivity|]. simpl. by rewrite Hobs.
Qed.

(** *** Examples *)

Lemma merge_pass_through_selects_witness :
  (heap0 !! _last ctrl_none = Some seen0 /\
   length (frame 7 f_2 f_0_9) = length seen0) /\
  exists ret self' h' stored,
    _merge ctrl_none (frame 7 f_2 f_0_9) heap0 = (Ok (ret, self'), h') /\
    h' !! _last self' = Some stored /\
    length stored = length seen0 /\
    forall k r c, seen0 !! k = Some r -> frame 7 f_2 f_0_9 !! k = Some c ->
      stored !! k =
        Some (if f32.ge (np.c3 c) (f32.of_float (vis_thresh ctrl_none)) then c else r).
Proof.
  split; [split; vm_compute; reflexivity|].
  apply (merge_pass_through_selects ctrl_none heap0 seen0 (frame 7 f_2 f_0_9));
    vm_compute; reflexivity.
Defined.

Lemma merge_keeps_shape_witness :
  (heap0 !! _last ctrl_none = Some seen0 /\
   length (frame 7 f_2 f_0_9) = length seen0) /\
  exists ret self' h' stored,
    _merge ctrl_none (frame 7 f_2 f_0_9) heap0 = (Ok (ret, self'), h') /\
    h' !! _last self' = Some stored /\
    length stored = length seen0.
Proof.
  split; [split; vm_compute; reflexivity|].
  apply (merge_keeps_shape ctrl_none heap0 seen0 (frame 7 f_2 f_0_9));
    vm_compute; reflexivity.
Defined.

Lemma merge_wrong_length_raises_witness :
  (unseen_heap !! _last ctrl_none = Some (np.full 33 f32.nan) /\
   np.full 32 f32.zero <> [] /\
   length (np.full 32 f32.zero) <> length (np.full 33 f32.nan) /\
   (np.isnan_all (np.full 33 f32.nan) = true \/
    np.any (np.col3_ge (np.full 32 f32.zero) (f32.of_float (vis_thresh ctrl_none))) = true)) /\
  exists h',
    _merge ctrl_none (np.full 32 f32.zero) unseen_heap =
      (Raise (IndexError "boolean index did not match indexed array"), h') /\
    h' !! _last ctrl_none = Some (np.full 33 f32.nan).
Proof.
  assert (Hcur : np.full 32 f32.zero <> []) by (vm_compute; discriminate).
  assert (Hlen : length (np.full 32 f32.zero) <> length (np.full 33 f32.nan))
    by (vm_compute; lia).
  split; [split; [reflexivity|split; [exact Hcur|split; [exact Hlen|left; reflexivity]]]|].
  apply (merge_wrong_length_raises ctrl_none unseen_heap (np.full 33 f32.nan)
           (np.full 32 f32.zero));
    [reflexivity|exact Hcur|exact Hlen|left; reflexivity].
Defined.

Lemma merge_empty_frame_returns_witness :
  heap0 !! _last ctrl_none = Some seen0 /\
  exists ret self' h',
    _merge ctrl_none [] heap0 = (Ok (ret, self'), h') /\
    ret = _last self' /\
    h' !! ret = Some seen0 /\
    vis_thresh self' = vis_thresh ctrl_none /\
    smoother self' = smoother ctrl_none.
Proof.
  split; [reflexivity|].
  apply (merge_empty_frame_returns ctrl_none heap0 seen0). reflexivity.
Defined.

Lemma merge_blend_leaves_heap_witness :
  (heap0 !! _last ctrl_none = Some seen0 /\
   np.isnan_all seen0 = false /\
   length (frame 0 f_2 f_0_9) = length seen0) /\
  exists ret self' h',
    _merge ctrl_none (frame 0 f_2 f_0_9) heap0 = (Ok (ret, self'), h') /\
    heap0 !! ret = None /\
    forall l a, heap0 !! l = Some a -> h' !! l = Some a.
Proof.
  split; [repeat split; vm_compute; reflexivity|].
  apply (merge_blend_leaves_heap ctrl_none heap0 seen0 (frame 0 f_2 f_0_9));
    vm_compute; reflexivity.
Defined.

Lemma merge_pass_through_stays_known_witness :
  (heap0 !! _last ctrl_none = Some seen0 /\
   length (frame 0 f_2 f_0_9) = length seen0 /\
   np.isnan_all seen0 = false) /\
  exists ret self' h' stored,
    _merge ctrl_none (frame 0 f_2 f_0_9) heap0 = (Ok (ret, self'), h') /\
    h' !! _last self' = Some stored /\
    np.isnan_all stored = false.
Proof.
  split; [repeat split; vm_compute; reflexivity|].
  apply (merge_pass_through_stays_known ctrl_none heap0 seen0 (frame 0 f_2 f_0_9));
    vm_compute; reflexivity.
Defined.

Lemma merge_without_accepted_landmark_witness :
  (heap0 !! _last ctrl_none = Some seen0 /\
   length (np.full 33 f32.zero) = length seen0 /\
   np.any (np.col3_ge (np.full 33 f32.zero) (f32.of_float (vis_thresh ctrl_none))) = false) /\
  exists ret self' h',
    _merge ctrl_none (np.full 33 f32.zero) heap0 = (Ok (ret, self'), h') /\
    h' !! _last self' = Some seen0.
Proof.
  split; [repeat split; vm_compute; reflexivity|].
  apply (merge_without_accepted_landmark ctrl_none heap0 seen0 (np.full 33 f32.zero));
    vm_compute; reflexivity.
Defined.

(** A state with landmark 0 known and landmark 1 unknown meets a frame that
    brings landmark 1. *)
Lemma merge_frame_first_acceptance_adopts_witness :
  (heap0 !! 0 = Some seen0 /\
   length (frame 1 f_2 f_0_9) = length seen0 /\
   np.isnan_all seen0 = false /\
   seen0 !! 1 = Some unknown /\
   frame 1 f_2 f_0_9 !! 1 = Some row2 /\
   f32.ge (np.c3 row2) (f32.of_float server.VIS_THRESH) = true) /\
  exists ret mask last_good' h' stored,
    server.merge_frame 0 (frame 1 f_2 f_0_9) heap0 = (Ok (ret, mask, last_good'), h') /\
    h' !! last_good' = Some stored /\
    stored !! 1 = Some row2.
Proof.
  split; [repeat split; vm_compute; reflexivity|].
  apply (merge_frame_first_acceptance_adopts 0 heap0 seen0 (frame 1 f_2 f_0_9) 1 row2);
    vm_compute; reflexivity.
Defined.

Lemma merge_frame_footprint_witness :
  (unseen_heap !! 0 = Some (np.full 33 f32.nan) /\
   length (frame 0 f_2 f_0_9) = length (np.full 33 f32.nan)) /\
  exists ret mask last_good' h',
    server.merge_frame 0 (frame 0 f_2 f_0_9) unseen_heap
      = (Ok (ret, mask, last_good'), h') /\
    unseen_heap !! ret = None /\
    h' !! ret = h' !! last_good' /\
    (forall l a, l <> 0 -> unseen_heap !! l = Some a -> h' !! l = Some a) /\
    (np.isnan_all (np.full 33 f32.nan) = false -> h' !! 0 = Some (np.full 33 f32.nan)).
Proof.
  split; [split; vm_compute; reflexivity|].
  apply (merge_frame_footprint 0 unseen_heap (np.full 33 f32.nan) (frame 0 f_2 f_0_9));
    vm_compute; reflexivity.
Defined.

(** One-row arrays: a known row meets an accepted row. *)
Lemma merge_agrees_with_merge_frame_witness :
  let self := TrackerController_new server.VIS_THRESH
                (EmaSmoother_new server.EMA_ALPHA) 0 in
  let h : heap := {[ 0 := [row1] ]} in
  (h !! 0 = Some [row1] /\
   length [row2] = length [row1] /\
   (forall k r c, [row1] !! k = Some r -> [row2] !! k = Some c ->
      f32.ge (np.c3 c) (f32.of_float server.VIS_THRESH) = true ->
      np.row_all pyfloat.is_finite r = true)) /\
  exists ret self' h' ret2 mask last_good' h2 stored,
    _merge self [row2] h = (Ok (ret, self'), h') /\
    server.merge_frame 0 [row2] h = (Ok (ret2, mask, last_good'), h2) /\
    h' !! _last self' = Some stored /\
    h2 !! last_good' = Some stored.
Proof.
  intros self h.
  assert (Hfin : forall k r c, [row1] !! k = Some r -> [row2] !! k = Some c ->
            f32.ge (np.c3 c) (f32.of_float server.VIS_THRESH) = true ->
            np.row_all pyfloat.is_finite r = true).
  { intros [|k] r c Hr Hc _; [|discriminate]. injection Hr as <-. reflexivity. }
  split; [split; [reflexivity|split; [reflexivity|exact Hfin]]|].
  apply (merge_agrees_with_merge_frame 0 h [row1] [row2]);
    [reflexivity|reflexivity|exact Hfin].
Defined.

Lemma to_text_short_array_raises_witness :
  length (np.full 32 f32.zero) < 33 /\
  to_text (UnityPoseAdapter_new true None) "t" (np.full 32 f32.zero)
    = Raise (IndexError "index is out of bounds for axis 0").
Proof.
  assert (Hlen : length (np.full 32 f32.zero) < 33) by (vm_compute; lia).
  split; [exact Hlen|].
  apply (to_text_short_array_raises (UnityPoseAdapter_new true None) "t"
           (np.full 32 f32.zero) Hlen).
Defined.

(** The state [seen0] and the same state with one more row. *)
Lemma to_text_reads_xyz_of_33_rows_witness :
  (33 <= length seen0 /\
   33 <= length (seen0 ++ [row1]) /\
   (forall i r r', i < 33 -> seen0 !! i = Some r -> (seen0 ++ [row1]) !! i = Some r' ->
      np.c0 r = np.c0 r' /\ np.c1 r = np.c1 r' /\ np.c2 r = np.c2 r')) /\
  to_text (UnityPoseAdapter_new false None) "t" seen0 =
  to_text (UnityPoseAdapter_new false None) "t" (seen0 ++ [row1]).
Proof.
  assert (H33 : 33 <= length seen0) by (vm_compute; lia).
  assert (H34 : 33 <= length (seen0 ++ [row1])) by (vm_compute; lia).
  assert (Hxyz : forall i r r', i < 33 -> seen0 !! i = Some r ->
            (seen0 ++ [row1]) !! i = Some r' ->
            np.c0 r = np.c0 r' /\ np.c1 r = np.c1 r' /\ np.c2 r = np.c2 r').
  { intros i r r' Hi Hr Hr'. rewrite lookup_app_l in Hr' by (vm_compute; lia).
    by simplify_eq. }
  split; [split; [exact H33|split; [exact H34|exact Hxyz]]|].
  apply (to_text_reads_xyz_of_33_rows (UnityPoseAdapter_new false None) "t"
           seen0 (seen0 ++ [row1]) H33 H34 Hxyz).
Defined.

Lemma to_text_keeps_nan_when_not_zeroed_witness :
  (33 <= length seen0 /\ 1 < 33 /\ seen0 !! 1 = Some unknown) /\
  exists pose x y z,
    pose_of (UnityPoseAdapter_new false (Some 4%Z)) seen0 = Ok pose /\
    to_text (UnityPoseAdapter_new false (Some 4%Z)) "t" seen0 =
      Ok (dumps (JDict [("ts", JStr ("t" +:+ "Z")); ("pose", JList pose)])) /\
    pose !! 1 = Some (JDict [("id", JInt (Z.of_nat 1)); ("x", JFloat x);
                             ("y", JFloat y); ("z", JFloat z)]) /\
    (f32.isnan (np.c0 unknown) = true -> x = S754_nan /\ dumps (JFloat x) = "NaN") /\
    (f32.isnan (np.c1 unknown) = true -> y = S754_nan /\ dumps (JFloat y) = "NaN") /\
    (f32.isnan (np.c2 unknown) = true -> z = S754_nan /\ dumps (JFloat z) = "NaN").
Proof.
  assert (H33 : 33 <= length seen0) by (vm_compute; lia).
  assert (H1 : 1 < 33) by lia.
  split; [split; [exact H33|split; [exact H1|reflexivity]]|].
  apply (to_text_keeps_nan_when_not_zeroed (Some 4%Z) "t" seen0 1 unknown H33 H1).
  reflexivity.
Defined.

Definition idle_view : WebSocketView UnityPoseAdapter :=
  WebSocketView_new (UnityPoseAdapter_new true None) None ({[1]} : gset client).

Lemma tick_without_payload_or_client_witness :
  (_latest_text idle_view = None \/ _latest_text idle_view = Some EmptyString \/
   _clients idle_view = ∅) /\
  _broadcast_tick (idle_view, net0) = (Ok tt, (idle_view, net0)).
Proof.
  split; [left; reflexivity|].
  apply (tick_without_payload_or_client idle_view net0). left. reflexivity.
Defined.

Definition pose_view : WebSocketView UnityPoseAdapter :=
  WebSocketView_new (UnityPoseAdapter_new true None) (Some "pose")
    ({[1; 2]} : gset client).
Definition pose_globals : server.globals :=
  server.Globals ({[1; 2]} : gset client) (Some "pose").

Lemma server_tick_matches_view_tick_witness :
  (server.clients pose_globals = _clients pose_view /\
   server.latest_payload_text pose_globals = _latest_text pose_view) /\
  exists n',
    server.broadcast_tick (pose_globals, net0) = (Ok tt, (pose_globals, n')) /\
    _broadcast_tick (pose_view, net0) = (Ok tt, (pose_view, n')).
Proof.
  split; [split; reflexivity|].
  apply (server_tick_matches_view_tick pose_globals pose_view net0); reflexivity.
Defined.

(** The text of the adapter for [seen0] at clock reading [t]. *)
Definition text0 : string :=
  match to_text (UnityPoseAdapter_new true None) "t" seen0 with
  | Ok text => text
  | Raise _ => EmptyString
  end.

Definition json_view : JsonPrintView UnityPoseAdapter :=
  JsonPrintView_new (UnityPoseAdapter_new true None) 160.

Lemma json_preview_bounded_witness :
  ((0 <= preview_chars json_view)%Z /\
   to_text (json_adapter json_view) "t" seen0 = Ok text0) /\
  exists preview,
    JsonPrintView_update json_view "t" seen0 [] = (Ok tt, [] ++ ["[JSON] " +:+ preview]) /\
    String.length preview <= Z.to_nat (preview_chars json_view) + 3 /\
    (String.length text0 <= Z.to_nat (preview_chars json_view) -> preview = text0) /\
    (Z.to_nat (preview_chars json_view) < String.length text0 ->
       preview = String.substring 0 (Z.to_nat (preview_chars json_view)) text0 +:+ "..." /\
       String.length preview = Z.to_nat (preview_chars json_view) + 3).
Proof.
  assert (Hpos : (0 <= preview_chars json_view)%Z) by (vm_compute; discriminate).
  assert (Htext : to_text (json_adapter json_view) "t" seen0 = Ok text0)
    by (vm_compute; reflexivity).
  split; [split; [exact Hpos|exact Htext]|].
  apply (json_preview_bounded json_view "t" seen0 text0 [] Hpos Htext).
Defined.

Definition pts_str (pts : list (f32.t * f32.t * f32.t)) : string := "pts".

Definition app_model (arr : np.ndarray)
  : PoseModel app_observer np.ndarray (app_views UnityPoseAdapter) :=
  PoseModel_new arr [console_view; ws_view] (AppViews pose_view net0 "t" []) [] [].

Lemma app_set_fills_slot_witness :
  (_observers (app_model (np.full 33 f32.nan)) = [console_view; ws_view] /\
   to_text (adapter pose_view) "t" seen0 = Ok text0) /\
  exists line m',
    @set app_observer np.ndarray (app_views UnityPoseAdapter) (app_IObserver pts_str)
      seen0 (app_model (np.full 33 f32.nan)) = (Ok tt, m') /\
    _arr m' = seen0 /\
    _observers m' = [console_view; ws_view] /\
    _latest_text (app_ws (views m')) = Some text0 /\
    _clients (app_ws (views m')) = _clients pose_view /\
    app_net (views m') = net0 /\
    app_console (views m') = [] ++ [line] /\
    stdout m' = [].
Proof.
  assert (Htext : to_text (adapter pose_view) "t" seen0 = Ok text0)
    by (vm_compute; reflexivity).
  split; [split; [reflexivity|exact Htext]|].
  apply (app_set_fills_slot pts_str seen0 text0 (app_model (np.full 33 f32.nan)));
    [reflexivity|exact Htext].
Defined.

Lemma app_set_contains_adapter_failure_witness :
  let e := IndexError "index is out of bounds for axis 0" in
  (_observers (app_model (np.full 33 f32.nan)) = [console_view; ws_view] /\
   to_text (adapter pose_view) "t" [] = Raise e) /\
  exists m',
    @set app_observer np.ndarray (app_views UnityPoseAdapter) (app_IObserver pts_str)
      [] (app_model (np.full 33 f32.nan)) = (Ok tt, m') /\
    _arr m' = [] /\
    app_ws (views m') = pose_view /\
    app_net (views m') = net0 /\
    stdout m' = [] ++ ["[Model] Observer failed: " +:+ exn_str e].
Proof.
  intros e.
  split; [split; reflexivity|].
  apply (app_set_contains_adapter_failure pts_str [] e (app_model (np.full 33 f32.nan)));
    reflexivity.
Defined.

(** ** mvc/controller.py: the producer loop *)

(** One turn of [_loop] once the frame [cur] is built:
    [merged = self._merge(cur); self.model.set(merged)].  The model holds the
    address of an array. *)
Definition loop_step {S Obs W : Type} `{ISmoother S} `{IObserver Obs loc W}
    (self : TrackerController S) (cur : np.ndarray)
  : M (heap * PoseModel Obs loc W) (TrackerController S) :=
  fun '(h, m) =>
    match _merge self cur h with
    | (Ok (merged, self'), h') =>
        match set merged m with
        | (Ok _, m') => (Ok self', (h', m'))
        | (Raise e, m') => (Raise e, (h', m'))
        end
    | (Raise e, h') => (Raise e, (h', m))
    end.

(** [_loop] over the frames the camera and the pose detector deliver until
    the controller is stopped. *)
Fixpoint _loop {S Obs W : Type} `{ISmoother S} `{IObserver Obs loc W}
    (self : TrackerController S) (frames : list np.ndarray)
  : M (heap * PoseModel Obs loc W) (TrackerController S) :=
  match frames with
  | [] => mret self
  | cur :: frames' => self' ← loop_step self cur; _loop self' frames'
  end.

Section loop_facts.
Context {S Obs W : Type} `{ISmoother S} `{!Elementwise S} `{IObserver Obs loc W}.

Lemma loop_step_outcome (self : TrackerController S) (h : heap)
    (m : PoseModel Obs loc W) (last cur : np.ndarray) :
  h !! _last self = Some last ->
  length cur = length last ->
  exists self' h' m' stored,
    loop_step self cur (h, m) = (Ok self', (h', m')) /\
    _arr m' = _last self' /\
    h' !! _last self' = Some stored /\
    length stored = length last.
Proof.
  intros Hlast Hlen.
  destruct (_merge_rows self h last cur Hlast Hlen)
    as (ret & self' & h' & stored & Hrun & _ & _ & Hret & Hstored & Hrows).
  destruct (set_installs_argument ret m) as (m' & Hset & Harr).
  exists self', h', m', stored. unfold loop_step. rewrite Hrun, Hset.
  split; [done|]. split; [congruence|]. by split.
Qed.

(** X23.  The producer loop on frames of 33 rows, from a state of 33 rows
    and with a strategy that works entry by entry, never raises, whatever
    the observers do; the state keeps its 33 rows; and after the first frame
    the array the model holds and hands to its observers is the very object
    [_last] names in the controller. *)
Theorem loop_keeps_shape_and_shares_storage (frames : list np.ndarray)
    (self : TrackerController S) (h : heap) (m : PoseModel Obs loc W)
    (last : np.ndarray) :
  h !! _last self = Some last ->
  length last = 33 ->
  Forall (fun cur => length cur = 33) frames ->
  exists self' h' m' stored,
    _loop self frames (h, m) = (Ok self', (h', m')) /\
    h' !! _last self' = Some stored /\
    length stored = 33 /\
    (frames <> [] -> _arr m' = _last self').
Proof.
  intros Hlast Hlen Hframes. revert self h m last Hlast Hlen.
  induction Hframes as [|cur frames Hcur Hframes IH]; intros self h m last Hlast Hlen.
  - exists self, h, m, last. by repeat split.
  - destruct (loop_step_outcome self h m last cur Hlast) as
      (self1 & h1 & m1 & stored1 & Hstep & Harr1 & Hstored1 & Hrows1); [congruence|].
    destruct (IH self1 h1 m1 stored1 Hstored1) as
      (self' & h' & m' & stored & Hloop & Hstored & Hrows & Harr); [congruence|].
    exists self', h', m', stored.
    cbn [_loop]. unfold mbind, M_bind, bind. rewrite Hstep, Hloop.
    split; [done|]. split; [done|]. split; [done|]. intros _.
    destruct frames as [|cur' frames']; [|apply Harr; discriminate].
    simpl in Hloop. unfold mret, M_ret, ret in Hloop. by simplify_eq.
Qed.

End loop_facts.

Section late_joiner.
Context {T : Type} `{IPayloadAdapter T}.


End late_joiner.

(** A do-nothing observer, for the examples of the loop. *)
#[global] Instance quiet_IObserver : IObserver unit loc unit :=
  fun _ _ s => (Ok tt, s).

Lemma loop_keeps_shape_and_shares_storage_witness :
  let frames := [np.full 33 f32.zero; frame 0 f_2 f_0_9; frame 1 f_1 f_0_9] in
  let m : PoseModel unit loc unit := PoseModel_new 0 [tt] tt [] [] in
  (unseen_heap !! _last (ctrl_ema server.EMA_ALPHA) = Some (np.full 33 f32.nan) /\
   length (np.full 33 f32.nan) = 33 /\
   Forall (fun cur => length cur = 33) frames) /\
  exists self' h' m' stored,
    _loop (ctrl_ema server.EMA_ALPHA) frames (unseen_heap, m) = (Ok self', (h', m')) /\
    h' !! _last self' = Some stored /\
    length stored = 33 /\
    (frames <> [] -> _arr m' = _last self').
Proof.
  intros frames m.
  assert (Hframes : Forall (fun cur => length cur = 33) frames)
    by (repeat constructor).
  split; [split; [reflexivity|split; [reflexivity|exact Hframes]]|].
  apply (loop_keeps_shape_and_shares_storage frames (ctrl_ema server.EMA_ALPHA)
           unseen_heap m (np.full 33 f32.nan)); [reflexivity|reflexivity|exact Hframes].
Defined.

